(** * event_app: the event-to-job dispatch service

    A shallow embedding of [prodinf-srv/event_app.py].  The module is a
    Flask application: module-level tables ([event_lookup],
    [process_lookup]), a module-level connection cache ([hives]), a
    report helper ([log_and_publish]), view functions and three error
    handlers.  The views [submit_job], [job], [delete_job] and [jobs]
    are embedded; [events] and [processes], which only list the keys of
    the two tables, are not.

    Python statements that read or write module state, call an external
    library or raise are written in a state-and-exception monad [M].
    The world keeps the [hives] dictionary, the state of everything
    outside the process, and the ordered trace of the calls the module
    made (logger, publisher, backend, task queue). *)

From stdpp Require Import base option list strings gmap fin_maps pretty.
From Stdlib Require Import ZArith Ascii String.

Local Open Scope Z_scope.
Local Open Scope string_scope.
Local Open Scope list_scope.
Set Warnings "-register-all".

(** ** JSON documents

    [request.json], the job results and the response bodies are Python
    values built from dict, list, str, int, bool and None.  A dict is an
    association list with unique keys in insertion order.  Numbers are
    integers here; floats are outside this model. *)

Inductive json : Type :=
| JNull
| JBool (b : bool)
| JNum (n : Z)
| JStr (s : string)
| JArr (items : list json)
| JObj (fields : list (string * json)).

(** [d[k]] read: the first (and only) binding of [k]. *)
Fixpoint dict_get (k : string) (d : list (string * json)) : option json :=
  match d with
  | [] => None
  | (k', v) :: d' => if String.eqb k k' then Some v else dict_get k d'
  end.

(** [d[k] = v]: overwrite in place when [k] is bound, else append. *)
Fixpoint dict_set (k : string) (v : json) (d : list (string * json))
  : list (string * json) :=
  match d with
  | [] => [(k, v)]
  | (k', v') :: d' =>
      if String.eqb k k' then (k', v) :: d' else (k', v') :: dict_set k v d'
  end.

(** [str(b)] of a Python boolean. *)
Definition py_str_bool (b : bool) : string :=
  if b then "True" else "False".

(** [s.lower()] on ASCII text. *)
Definition ascii_lower (c : ascii) : ascii :=
  let n := nat_of_ascii c in
  if (Nat.leb 65 n && Nat.leb n 90)%bool then ascii_of_nat (n + 32) else c.

Fixpoint lower (s : string) : string :=
  match s with
  | EmptyString => EmptyString
  | String c s' => String (ascii_lower c) (lower s')
  end.

(** ** Exceptions *)

Inductive exn : Type :=
| HTTPRequestError (msg : string) (status_code : Z)
| EventNotFoundError (msg : string)
| ProcessNotFoundError (msg : string)
| ValueError (msg : string)
| KeyError (key : string)
| TypeError (msg : string)
| AttributeError (msg : string)
| OtherError (msg : string).

(** Modelled from the spec: the default [status_code] of
    [HTTPRequestError], a class declared in [ensembl_prodinf.exceptions]
    (not part of this module).  The spec maps an [InvalidInput] detected
    locally to HTTP 400. *)
Definition HTTPRequestError_default_status : Z := 400.

Inductive outcome (A : Type) : Type :=
| Ok (a : A)
| Raise (e : exn).
Arguments Ok {A} a.
Arguments Raise {A} e.

(** ** Data of the module *)

(** One entry of the process-lookup document:
    [{"hive_uri": ..., "analysis": ...}]. *)
Record ProcessDescriptor : Type := {
  hive_uri : string;
  analysis : string;
}.

(** The two tables read with [json.load] when the module is imported.
    They are typed as the documents are laid out: event type to list of
    process names, process name to descriptor. *)
Record Config : Type := {
  event_lookup : gmap string (list string);
  process_lookup : gmap string ProcessDescriptor;
}.

(** A [HiveInstance] object.  [hive_oid] is the identity of the Python
    object (two calls of the constructor give two objects even for one
    URI). *)
Record HiveInstance : Type := {
  hive_url : string;
  hive_oid : nat;
}.

(** A job handle returned by the backend; the module only reads
    [job.job_id]. *)
Record Job : Type := { job_id : Z }.

(** A report as [make_report] builds it and [log_and_publish] reads it. *)
Record report : Type := {
  report_type : string;
  msg : string;
}.

(** Modelled from the spec: [make_report] of [ensembl_prodinf.reporting]
    (not part of this module) constructs the record
    [{report_type: level, msg: message}]. *)
Definition make_report (level message : string) : report :=
  {| report_type := level; msg := message |}.

(** The request as the views read it: [request.headers],
    [request.args] and [request.json]. *)
Record request : Type := {
  headers : gmap string string;
  args : gmap string string;
  json_body : json;
}.

(** ** The libraries the module calls

    [HiveInstance] methods, [AMQPPublisher.publish] and the Celery task
    [process_result.delay] live outside the module.  Each is a function
    of the outside state that returns a value or raises. *)
Record External : Type := {
  ext : Type;
  hive_create_job :
    HiveInstance -> string -> json -> ext -> outcome Job * ext;
  hive_get_job_by_id : HiveInstance -> Z -> ext -> outcome Job * ext;
  hive_get_result_for_job_id :
    HiveInstance -> Z -> ext -> outcome json * ext;
  hive_delete_job : HiveInstance -> Job -> ext -> outcome unit * ext;
  hive_get_all_results :
    HiveInstance -> string -> ext -> outcome json * ext;
  publisher_publish : report -> string -> ext -> outcome unit * ext;
  process_result_delay :
    json -> string -> Z -> ext -> outcome string * ext;
}.

(** Every call that leaves the interpreter, in program order. *)
Inductive effect : Type :=
| ELog (level : Z) (message : string)
| EPublish (r : report) (routing_key : string)
| ENewHive (process : string) (h : HiveInstance)
| ECreateJob (h : HiveInstance) (analysis_name : string) (payload : json)
| EGetJob (h : HiveInstance) (id : Z)
| EGetResult (h : HiveInstance) (id : Z)
| EDeleteJob (h : HiveInstance) (j : Job)
| EGetAllResults (h : HiveInstance) (analysis_name : string)
| EDelay (event : json) (process : string) (id : Z).

(** [getattr(logging, level)] for the level names of the [logging]
    module.  With any other name the call of [app.logger.log] logs
    nothing: the module has no such attribute ([AttributeError]) or the
    attribute is no level; the model raises [AttributeError] for both. *)
Definition logging_level (level : string) : option Z :=
  if String.eqb level "DEBUG" then Some 10
  else if String.eqb level "INFO" then Some 20
  else if String.eqb level "WARNING" then Some 30
  else if String.eqb level "WARN" then Some 30
  else if String.eqb level "ERROR" then Some 40
  else if String.eqb level "CRITICAL" then Some 50
  else if String.eqb level "FATAL" then Some 50
  else if String.eqb level "NOTSET" then Some 0
  else None.

(** [json_pattern = re.compile("application/json")] used with [.match]:
    the pattern is a plain literal, and [match] anchors it at the start
    of the header value only, so any suffix is accepted. *)
Definition json_pattern_match (content_type : string) : bool :=
  String.prefix "application/json" content_type.

Section EventApp.

Context (C : Config) (X : External).

(** ** World and monad *)

Record world : Type := {
  hives : gmap string HiveInstance;
  outside : ext X;
  trace : list effect;
}.

Definition M (A : Type) : Type := world -> outcome A * world.

Definition ret {A} (a : A) : M A := fun w => (Ok a, w).

Definition raise {A} (e : exn) : M A := fun w => (Raise e, w).

Definition bind {A B} (m : M A) (k : A -> M B) : M B :=
  fun w =>
    match m w with
    | (Ok a, w') => k a w'
    | (Raise e, w') => (Raise e, w')
    end.

Notation "x <- m ;; k" := (bind m (fun x => k))
  (at level 100, m at next level, right associativity).
Notation "m ;;; k" := (bind m (fun _ => k))
  (at level 100, right associativity).

(** [try: m except ValueError as e: h(str(e))]. *)
Definition except_ValueError {A} (m : M A) (h : string -> M A) : M A :=
  fun w =>
    match m w with
    | (Raise (ValueError s), w') => h s w'
    | r => r
    end.

(** The world after the calls [es] left the outside in state [o]; the
    cache is untouched. *)
Definition advance (w : world) (o : ext X) (es : list effect) : world :=
  {| hives := hives w; outside := o; trace := trace w ++ es |}.

Definition emit (e : effect) (w : world) : world :=
  advance w (outside w) [e].

(** A call of an external function [f]: record it, run it on the
    outside state. *)
Definition call {A} (e : effect) (f : ext X -> outcome A * ext X) : M A :=
  fun w => let r := f (outside w) in (fst r, advance w (snd r) [e]).

Definition logger_log (level : Z) (message : string) : M unit :=
  fun w => (Ok tt, emit (ELog level message) w).

(** ** The report helper *)

Definition log_and_publish (r : report) : M unit :=
  let level := report_type r in
  let routing_key := "report." +:+ lower level in
  match logging_level level with
  | None =>
      raise (AttributeError ("module 'logging' has no level " +:+ level))
  | Some n =>
      logger_log n (msg r) ;;;
      call (EPublish r routing_key) (publisher_publish X r routing_key)
  end.

(** ** The lookup tables *)

Definition get_processes_for_event (event : json) : M (list string) :=
  match event with
  | JObj fields =>
      match dict_get "type" fields with
      | None => raise (KeyError "type")
      | Some (JStr event_type) =>
          match event_lookup C !! event_type with
          | None =>
              raise (EventNotFoundError
                       ("Event type " +:+ event_type +:+ " not known"))
          | Some processes => ret processes
          end
      | Some (JArr _) => raise (TypeError "unhashable type: 'list'")
      | Some (JObj _) => raise (TypeError "unhashable type: 'dict'")
      (* None, a boolean or a number is hashable and is no key of a
         table whose keys are strings *)
      | Some JNull => raise (EventNotFoundError "Event type None not known")
      | Some (JBool b) =>
          raise (EventNotFoundError
                   ("Event type " +:+ py_str_bool b +:+ " not known"))
      | Some (JNum n) =>
          raise (EventNotFoundError
                   ("Event type " +:+ pretty n +:+ " not known"))
      end
  | _ => raise (TypeError "event is not subscriptable by a string")
  end.

Definition get_analysis (process : string) : M string :=
  match process_lookup C !! process with
  | None =>
      raise (ProcessNotFoundError ("Process " +:+ process +:+ " not known"))
  | Some d => ret (analysis d)
  end.

(** ** The connection cache *)

(** The pairs (process, object) of every [HiveInstance(...)] built so
    far. *)
Fixpoint constructions (t : list effect) : list (string * HiveInstance) :=
  match t with
  | [] => []
  | ENewHive p h :: t' => (p, h) :: constructions t'
  | _ :: t' => constructions t'
  end.

Definition get_hive (process : string) : M HiveInstance :=
  fun w =>
    match hives w !! process with
    | Some h => (Ok h, w)
    | None =>
        match process_lookup C !! process with
        | None =>
            (Raise (ProcessNotFoundError
                      ("Process " +:+ process +:+ " not known")), w)
        | Some d =>
            let h := {| hive_url := hive_uri d;
                        hive_oid := List.length (constructions (trace w)) |} in
            (Ok h, {| hives := <[process := h]> (hives w);
                      outside := outside w;
                      trace := trace w ++ [ENewHive process h] |})
        end
    end.

(** What the cache promises: every connection built so far was built
    for a different process name, the cache holds exactly these
    connections under their names, and each was built from the address
    of its process descriptor. *)
Definition pool_inv (w : world) : Prop :=
  NoDup (constructions (trace w)).*1
  /\ (forall p h,
        hives w !! p = Some h <-> (p, h) ∈ constructions (trace w))
  /\ (forall p h,
        hives w !! p = Some h ->
        exists d, process_lookup C !! p = Some d /\ hive_url h = hive_uri d).

(** ** Views *)

(** [request.headers[name]]. *)
Definition header (req : request) (name : string) : M string :=
  match headers req !! name with
  | Some v => ret v
  | None => raise (KeyError name)
  end.

Definition process_entry (process : string) (job : Z) (task : string) : json :=
  JObj [("process", JStr process); ("job", JNum job); ("task", JStr task)].

(** The body of the [for process in processes] loop of [submit_job],
    up to the entry it appends. *)
Definition submit_process (event : json) (process : string) : M json :=
  log_and_publish
    (make_report "DEBUG" ("Submitting process " +:+ process)) ;;;
  hive <- get_hive process ;;
  analysis_name <- get_analysis process ;;
  job <- except_ValueError
           (call (ECreateJob hive analysis_name (JObj [("event", event)]))
              (hive_create_job X hive analysis_name
                 (JObj [("event", event)])))
           (fun s => raise (HTTPRequestError s 404)) ;;
  event_task <- call (EDelay event process (job_id job))
                  (process_result_delay X event process (job_id job)) ;;
  ret (process_entry process (job_id job) event_task).

(** The loop; [acc] is [results['processes']] so far. *)
Fixpoint submit_loop (event : json) (processes : list string)
    (acc : list json) : M (list json) :=
  match processes with
  | [] => ret acc
  | process :: rest =>
      entry <- submit_process event process ;;
      submit_loop event rest (acc ++ [entry])
  end.

Definition submit_job (req : request) : M json :=
  content_type <- header req "Content-Type" ;;
  if json_pattern_match content_type then
    let event := json_body req in
    processes <- get_processes_for_event event ;;
    entries <- submit_loop event processes [] ;;
    ret (JObj [("processes", JArr entries); ("event", event)])
  else
    raise (HTTPRequestError
             ("Could not handle input of type " +:+ content_type)
             HTTPRequestError_default_status).

Definition results (process : string) (id : Z) : M json :=
  log_and_publish
    (make_report "INFO"
       ("Retrieving job from " +:+ process +:+ " with ID " +:+ pretty id)) ;;;
  except_ValueError
    (hive <- get_hive process ;;
     call (EGetResult hive id) (hive_get_result_for_job_id X hive id))
    (fun s => raise (HTTPRequestError s 404)).

(** [results['email'] = email] on what the backend returned. *)
Definition set_email (doc : json) (email : string) : M json :=
  match doc with
  | JObj fields => ret (JObj (dict_set "email" (JStr email) fields))
  | _ => raise (TypeError "result does not support item assignment by str")
  end.

Definition results_email (email process : string) (id : Z) : M json :=
  log_and_publish
    (make_report "INFO"
       ("Retrieving job with ID " +:+ pretty id +:+ " for " +:+ email)) ;;;
  hive <- get_hive process ;;
  doc <- except_ValueError
           (call (EGetJob hive id) (hive_get_job_by_id X hive id) ;;;
            call (EGetResult hive id) (hive_get_result_for_job_id X hive id))
           (fun s => raise (HTTPRequestError s 404)) ;;
  set_email doc email.

Definition job (process : string) (id : Z) (req : request) : M json :=
  match args req !! "format" with
  | Some output_format =>
      if String.eqb output_format "email" then
        match args req !! "email" with
        | None =>
            raise (HTTPRequestError "Email not specified"
                     HTTPRequestError_default_status)
        | Some email => results_email email process id
        end
      else
        raise (HTTPRequestError
                 ("Format " +:+ output_format +:+ " not known")
                 HTTPRequestError_default_status)
  | None => results process id
  end.

Definition delete_job (process : string) (id : Z) : M json :=
  hive <- get_hive process ;;
  j <- call (EGetJob hive id) (hive_get_job_by_id X hive id) ;;
  except_ValueError
    (call (EDeleteJob hive j) (hive_delete_job X hive j))
    (fun s => raise (HTTPRequestError s 404)) ;;;
  ret (JObj [("id", JNum id); ("process", JStr process)]).

Definition jobs (process : string) : M json :=
  log_and_publish (make_report "INFO" "Retrieving jobs") ;;;
  (* arguments are evaluated after the callee expression *)
  hive <- get_hive process ;;
  analysis_name <- get_analysis process ;;
  call (EGetAllResults hive analysis_name)
    (hive_get_all_results X hive analysis_name).

(** ** Error handlers and dispatch *)

Inductive response : Type :=
| Response (status : Z) (body : json)
| Unhandled (e : exn).

(** The three [@app.errorhandler] functions: the status and the
    message of the [{error: message}] body, for the exception classes
    that have a handler.  [str(e)] of an exception is the message it was
    raised with. *)
Definition errorhandler (e : exn) : option (Z * string) :=
  match e with
  | HTTPRequestError s code => Some (code, s)
  | EventNotFoundError s => Some (404, s)
  | ProcessNotFoundError s => Some (404, s)
  | _ => None
  end.

Definition error_body (s : string) : json := JObj [("error", JStr s)].

(** Flask runs the view; a return value is a 200 response; an exception
    goes to its handler, which logs it at ERROR and answers; an
    exception without handler leaves the application. *)
Definition handle (view : M json) (w : world) : response * world :=
  match view w with
  | (Ok body, w') => (Response 200 body, w')
  | (Raise e, w') =>
      match errorhandler e with
      | Some (code, s) => (Response code (error_body s), emit (ELog 40 s) w')
      | None => (Unhandled e, w')
      end
  end.

(** Flask answers an exception that no handler takes with
    500 Internal Server Error. *)
Definition status_of (r : response) : Z :=
  match r with
  | Response status _ => status
  | Unhandled _ => 500
  end.

Inductive route : Type :=
| POST_jobs
| GET_job (process : string) (id : Z)
| DELETE_job (process : string) (id : Z)
| GET_jobs (process : string).

Definition app (r : route) (req : request) : world -> response * world :=
  match r with
  | POST_jobs => handle (submit_job req)
  | GET_job process id => handle (job process id req)
  | DELETE_job process id => handle (delete_job process id)
  | GET_jobs process => handle (jobs process)
  end.

(** ** Vocabulary of the statements *)

(** The job creations of a submission all succeed.  The relation
    follows the outside through the submission of the processes, in
    order, from the world [w]: for each process the bus takes the DEBUG
    report, the connection [h] is obtained, the process has a descriptor
    [d], the backend, asked on [h] for the analysis of [d], answers with
    a job [j], and the task queue answers with a task [t]; each answer is
    the one given in the state the outside has reached.  [created]
    collects the job and task identifiers that were answered and the
    last world is the one the last answer left. *)
Inductive creations_succeed (event : json)
  : list string -> world -> list (Z * string) -> world -> Prop :=
| creations_done w : creations_succeed event [] w [] w
| creations_step process rest w o1 h w2 d j o3 t o4 created w' :
    publisher_publish X
      (make_report "DEBUG" ("Submitting process " +:+ process))
      "report.debug" (outside w) = (Ok tt, o1) ->
    get_hive process
      (advance w o1
         [ELog 10 ("Submitting process " +:+ process);
          EPublish (make_report "DEBUG" ("Submitting process " +:+ process))
            "report.debug"]) = (Ok h, w2) ->
    process_lookup C !! process = Some d ->
    hive_create_job X h (analysis d) (JObj [("event", event)]) (outside w2)
      = (Ok j, o3) ->
    process_result_delay X event process (job_id j) o3 = (Ok t, o4) ->
    creations_succeed event rest
      (advance w2 o4
         [ECreateJob h (analysis d) (JObj [("event", event)]);
          EDelay event process (job_id j)])
      created w' ->
    creations_succeed event (process :: rest) w
      ((job_id j, t) :: created) w'.

(** The entries of [results['processes']] for the processes [ps] and
    the (job id, task id) pairs [created]. *)
Definition process_entries (ps : list string) (created : list (Z * string))
  : list json :=
  zip_with (fun p c => process_entry p (fst c) (snd c)) ps created.

Definition is_delete (e : effect) : bool :=
  match e with
  | EDeleteJob _ _ => true
  | _ => false
  end.

(** Whatever happens, the computation [m] only adds calls that satisfy
    [P] to the trace. *)
Definition emits (P : effect -> Prop) {A} (m : M A) : Prop :=
  forall w, exists es, trace (snd (m w)) = trace w ++ es /\ Forall P es.

(** The computation [m] keeps the promise of the cache. *)
Definition pool_safe {A} (m : M A) : Prop :=
  forall w, pool_inv w -> pool_inv (snd (m w)).

(** The computation [m] keeps the property [Inv] of the world, whatever
    its outcome. *)
Definition preserves (Inv : world -> Prop) {A} (m : M A) : Prop :=
  forall w, Inv w -> Inv (snd (m w)).

(** A backend call that creates a job, queues its task or deletes a
    job. *)
Definition changes_jobs (e : effect) : bool :=
  match e with
  | ECreateJob _ _ _ | EDelay _ _ _ | EDeleteJob _ _ => true
  | _ => false
  end.

(** A call that creates a job or queues its task. *)
Definition creates_job (e : effect) : bool :=
  match e with
  | ECreateJob _ _ _ | EDelay _ _ _ => true
  | _ => false
  end.

(** A call of the backend ([HiveInstance] method or task queue). *)
Definition is_backend_call (e : effect) : bool :=
  match e with
  | ELog _ _ | EPublish _ _ | ENewHive _ _ => false
  | _ => true
  end.

(** A publish call carries the routing key of its report's level, and
    the level is DEBUG or INFO. *)
Definition report_routed (e : effect) : Prop :=
  match e with
  | EPublish r routing_key =>
      routing_key = "report." +:+ lower (report_type r)
      /\ (report_type r = "DEBUG" \/ report_type r = "INFO")
  | _ => True
  end.

(** The process in the path of a route. *)
Definition route_process (r : route) : option string :=
  match r with
  | POST_jobs => None
  | GET_job process _ | DELETE_job process _ | GET_jobs process =>
      Some process
  end.

(** The backend calls a route may make: a submission deletes nothing,
    a deletion creates nothing, a read does neither. *)
Definition route_allows (r : route) (e : effect) : bool :=
  match r with
  | POST_jobs => negb (is_delete e)
  | DELETE_job _ _ => negb (creates_job e)
  | GET_job _ _ | GET_jobs _ => negb (changes_jobs e)
  end.

(** The libraries raise none of the exception classes the application
    has a handler for ([EventNotFoundError] and [ProcessNotFoundError]
    are classes of this module; [HTTPRequestError] is raised by the
    views). *)
Definition library_raises_unhandled : Prop :=
  (forall h a payload o e o',
      hive_create_job X h a payload o = (Raise e, o') ->
      errorhandler e = None)
  /\ (forall h id o e o',
        hive_get_job_by_id X h id o = (Raise e, o') -> errorhandler e = None)
  /\ (forall h id o e o',
        hive_get_result_for_job_id X h id o = (Raise e, o') ->
        errorhandler e = None)
  /\ (forall h j o e o',
        hive_delete_job X h j o = (Raise e, o') -> errorhandler e = None)
  /\ (forall h a o e o',
        hive_get_all_results X h a o = (Raise e, o') -> errorhandler e = None)
  /\ (forall r key o e o',
        publisher_publish X r key o = (Raise e, o') -> errorhandler e = None)
  /\ (forall event process id o e o',
        process_result_delay X event process id o = (Raise e, o') ->
        errorhandler e = None).

(** The routes whose view rejects input of the caller with the default
    status of [HTTPRequestError]: the content type of a submission, the
    [format] and [email] parameters of a job read. *)
Definition route_rejects_input (r : route) : bool :=
  match r with
  | POST_jobs | GET_job _ _ => true
  | DELETE_job _ _ | GET_jobs _ => false
  end.

(** An exception a view may end with: one without handler, or one of
    the handled classes with the status 404, or with the status 400
    where the view rejects input. *)
Definition view_exception (rejects_input : bool) (e : exn) : Prop :=
  match errorhandler e with
  | None => True
  | Some (code, _) => code = 404 \/ (rejects_input = true /\ code = 400)
  end.

(** The computation [m] raises nothing but exceptions in [Q]. *)
Definition raises_only (Q : exn -> Prop) {A} (m : M A) : Prop :=
  forall w e w', m w = (Raise e, w') -> Q e.

(** Connection objects are numbered in the order they were built. *)
Definition oids_in_order (w : world) : Prop :=
  forall i p h,
    constructions (trace w) !! i = Some (p, h) -> hive_oid h = i.

End EventApp.

Arguments hives {X} w.
Arguments outside {X} w.
Arguments trace {X} w.
Arguments advance {X} w o es.
Arguments emit {X} e w.
Arguments emits {X} P {A} m.
Arguments pool_safe C {X A} m.
Arguments preserves {X} Inv {A} m.
Arguments oids_in_order {X} w.
Arguments raises_only {X} Q {A} m.

(** ** A small deployment to run the service on

    Two event types and three processes.  The backend numbers jobs from
    its counter, refuses the analysis [retired], knows the jobs below the
    counter and refuses to delete job 0; the message bus is up or down. *)
Module Demo.

Record bench : Type := {
  next_job : Z;
  bus_up : bool;
}.

Definition config : Config := {|
  event_lookup :=
    list_to_map [("new_genome", ["qc"; "load"]);
                 ("handover", ["qc"; "legacy"; "load"]);
                 ("noop", [])];
  process_lookup :=
    list_to_map
      [("qc", {| hive_uri := "mysql://hive-1/qc"; analysis := "run_qc" |});
       ("load", {| hive_uri := "mysql://hive-2/load"; analysis := "load_db" |});
       ("legacy", {| hive_uri := "mysql://hive-1/old"; analysis := "retired" |})];
|}.

Definition create_job (h : HiveInstance) (a : string) (payload : json)
    (b : bench) : outcome Job * bench :=
  if String.eqb a "retired" then
    (Raise (ValueError "Analysis retired not found"), b)
  else
    (Ok {| job_id := next_job b |},
     {| next_job := (next_job b + 1)%Z; bus_up := bus_up b |}).

Definition get_job_by_id (h : HiveInstance) (id : Z) (b : bench)
  : outcome Job * bench :=
  if (id <? next_job b)%Z then (Ok {| job_id := id |}, b)
  else (Raise (ValueError ("Job " +:+ pretty id +:+ " not found")), b).

Definition get_result_for_job_id (h : HiveInstance) (id : Z) (b : bench)
  : outcome json * bench :=
  if (id <? next_job b)%Z then
    (Ok (JObj [("id", JNum id); ("status", JStr "complete")]), b)
  else (Raise (ValueError ("Job " +:+ pretty id +:+ " not found")), b).

Definition delete_job (h : HiveInstance) (j : Job) (b : bench)
  : outcome unit * bench :=
  if (job_id j =? 0)%Z then (Raise (ValueError "Job 0 is still running"), b)
  else (Ok tt, b).

Definition get_all_results (h : HiveInstance) (a : string) (b : bench)
  : outcome json * bench :=
  (Ok (JArr []), b).

Definition publish (r : report) (key : string) (b : bench)
  : outcome unit * bench :=
  if bus_up b then (Ok tt, b)
  else (Raise (OtherError "message bus unreachable"), b).

Definition delay (event : json) (process : string) (id : Z) (b : bench)
  : outcome string * bench :=
  (Ok ("task-" +:+ process +:+ "-" +:+ pretty id), b).

Definition backend : External := {|
  ext := bench;
  hive_create_job := create_job;
  hive_get_job_by_id := get_job_by_id;
  hive_get_result_for_job_id := get_result_for_job_id;
  hive_delete_job := delete_job;
  hive_get_all_results := get_all_results;
  publisher_publish := publish;
  process_result_delay := delay;
|}.

(** The service just started: empty cache, nothing done yet. *)
Definition start (b : bench) : world backend :=
  Build_world backend ∅ b [].

Definition up : bench := {| next_job := 3; bus_up := true |}.
Definition down : bench := {| next_job := 3; bus_up := false |}.

Definition json_request (body : json) : request :=
  {| headers := {[ "Content-Type" := "application/json; charset=utf-8" ]};
     args := ∅;
     json_body := body |}.

Definition query (a : list (string * string)) : request :=
  {| headers := ∅; args := list_to_map a; json_body := JNull |}.

(** Two events. *)
Definition genome_event : json := JObj [("type", JStr "new_genome")].
Definition handover_event : json := JObj [("type", JStr "handover")].

(** The connection of [qc], the first one built, and the world once it
    is cached. *)
Definition qc_hive : HiveInstance :=
  {| hive_url := "mysql://hive-1/qc"; hive_oid := 0 |}.

Definition with_qc : world backend :=
  snd (get_hive config backend "qc" (start up)).

(** The worlds of a [handover] submission: after the job of [qc], the
    first process, and after the report on [legacy], the second. *)
Definition after_qc : world backend :=
  snd (submit_loop config backend handover_event ["qc"] [] (start up)).

Definition after_report : world backend :=
  snd (log_and_publish backend
         (make_report "DEBUG" "Submitting process legacy") after_qc).

Definition legacy_hive : HiveInstance :=
  {| hive_url := "mysql://hive-1/old"; hive_oid := 1 |}.

(** A second deployment: the event table names a process, [ghost],
    that has no descriptor. *)
Definition config_stale : Config := {|
  event_lookup := <["archive" := ["qc"; "ghost"; "load"]]> (event_lookup config);
  process_lookup := process_lookup config;
|}.

Definition archive_event : json := JObj [("type", JStr "archive")].

(** A second backend: listing the results of the analysis [retired] is
    refused, and job 2 has no result yet ([None]). *)
Definition get_all_results_checked (h : HiveInstance) (a : string)
    (b : bench) : outcome json * bench :=
  if String.eqb a "retired" then
    (Raise (ValueError "Analysis retired not found"), b)
  else (Ok (JArr []), b).

Definition get_result_pending (h : HiveInstance) (id : Z) (b : bench)
  : outcome json * bench :=
  if (id =? 2)%Z then (Ok JNull, b) else get_result_for_job_id h id b.

Definition backend_checked : External := {|
  ext := bench;
  hive_create_job := create_job;
  hive_get_job_by_id := get_job_by_id;
  hive_get_result_for_job_id := get_result_pending;
  hive_delete_job := delete_job;
  hive_get_all_results := get_all_results_checked;
  publisher_publish := publish;
  process_result_delay := delay;
|}.

Definition start_checked (b : bench) : world backend_checked :=
  Build_world backend_checked ∅ b [].

(** The world after a [new_genome] submission on the first deployment. *)
Definition after_genome : world backend :=
  snd (app config backend POST_jobs (json_request genome_event) (start up)).

End Demo.

(** * Properties *)

Section Properties.

Context (C : Config) (X : External).

Implicit Types (w : world X) (o : ext X) (es : list effect).

(** ** Worlds *)

Lemma advance_advance w o es o' es' :
  advance (advance w o es) o' es' = advance w o' (es ++ es').
Proof. unfold advance; simpl. by rewrite <- app_assoc. Qed.

Lemma emit_advance e w o es :
  emit e (advance w o es) = advance w o (es ++ [e]).
Proof. unfold emit; simpl. apply advance_advance. Qed.

Lemma call_eq {A} (e : effect) (f : ext X -> outcome A * ext X) w r o :
  f (outside w) = (r, o) -> call X e f w = (r, advance w o [e]).
Proof. intros E. unfold call. by rewrite E. Qed.

(** ** The error handlers *)

Lemma handle_ok view w body w' :
  view w = (Ok body, w') -> handle X view w = (Response 200 body, w').
Proof. intros E. unfold handle. by rewrite E. Qed.

Lemma handle_http view w s code w' :
  view w = (Raise (HTTPRequestError s code), w') ->
  handle X view w = (Response code (error_body s), emit (ELog 40 s) w').
Proof. intros E. unfold handle. by rewrite E. Qed.

Lemma handle_unhandled view w e w' :
  view w = (Raise e, w') -> errorhandler e = None ->
  handle X view w = (Unhandled e, w').
Proof. intros E He. unfold handle. by rewrite E, He. Qed.

(** ** Content type *)

Lemma json_pattern_match_suffix (suffix : string) :
  json_pattern_match ("application/json" +:+ suffix) = true.
Proof.
  unfold json_pattern_match. simpl.
  repeat (destruct (ascii_dec _ _) as [_|Hne]; [|by destruct Hne]).
  by destruct suffix.
Qed.

(** C5.  A POST /jobs request whose Content-Type header does not start
    with [application/json] is answered 400 with the body
    [{error: "Could not handle input of type <header>"}], whatever the
    request body holds; the only trace it leaves is the ERROR log line of
    the handler.  Any header that continues [application/json] (a
    charset suffix, for one) passes the test. *)
Theorem submit_job_rejects_content_type (req : request) w (ct : string) :
  headers req !! "Content-Type" = Some ct ->
  json_pattern_match ct = false ->
  app C X POST_jobs req w =
    (Response 400 (error_body ("Could not handle input of type " +:+ ct)),
     emit (ELog 40 ("Could not handle input of type " +:+ ct)) w)
  /\ (forall suffix, json_pattern_match ("application/json" +:+ suffix) = true).
Proof.
  intros Hct Hno. split; [|apply json_pattern_match_suffix].
  unfold app. apply handle_http.
  unfold submit_job, bind, header. rewrite Hct. unfold ret. by rewrite Hno.
Qed.

(** ** Event resolution *)

Lemma submit_job_json (req : request) w (ct : string) :
  headers req !! "Content-Type" = Some ct ->
  json_pattern_match ct = true ->
  submit_job C X req w =
    bind X (get_processes_for_event C X (json_body req))
      (fun processes =>
         bind X (submit_loop C X (json_body req) processes [])
           (fun entries =>
              ret X (JObj [("processes", JArr entries);
                           ("event", json_body req)]))) w.
Proof.
  intros Hct Hyes. unfold submit_job, header.
  unfold bind at 1. rewrite Hct. unfold ret at 1. by rewrite Hyes.
Qed.

(** C4.  A POST /jobs request with a JSON content type whose body is an
    object without [type]: reading [event['type']] raises [KeyError],
    none of the three error handlers is registered for it, so no
    [{error: message}] answer is built; the exception leaves the
    application (Flask's 500) with the world as it was: nothing logged,
    no job created. *)
Theorem submit_job_missing_type (req : request) w (ct : string)
    (fields : list (string * json)) :
  headers req !! "Content-Type" = Some ct ->
  json_pattern_match ct = true ->
  json_body req = JObj fields ->
  dict_get "type" fields = None ->
  app C X POST_jobs req w = (Unhandled (KeyError "type"), w)
  /\ errorhandler (KeyError "type") = None
  /\ status_of (fst (app C X POST_jobs req w)) = 500.
Proof.
  intros Hct Hyes Hbody Hno.
  assert (E : app C X POST_jobs req w = (Unhandled (KeyError "type"), w)).
  { unfold app. apply handle_unhandled; [|done].
    rewrite (submit_job_json _ _ _ Hct Hyes), Hbody.
    unfold bind, get_processes_for_event. by rewrite Hno. }
  by rewrite E.
Qed.


(** ** The report helper *)

Lemma log_and_publish_eq (r : report) (n : Z) w :
  logging_level (report_type r) = Some n ->
  log_and_publish X r w =
    (fst (publisher_publish X r ("report." +:+ lower (report_type r))
            (outside w)),
     advance w
       (snd (publisher_publish X r ("report." +:+ lower (report_type r))
               (outside w)))
       [ELog n (msg r); EPublish r ("report." +:+ lower (report_type r))]).
Proof.
  intros Hn. unfold log_and_publish. rewrite Hn.
  unfold bind, logger_log, call. f_equal.
  unfold emit. by rewrite advance_advance.
Qed.

(** C2, as the code has it.  For a report whose level names a logging
    severity [n]: the message is logged at [n], then the report is
    published with the routing key ["report." + lower(level)], in that
    order and whatever the publisher answers, so a failing publish does
    not undo the log line.  The publisher's exception is not caught: it
    is the outcome of [log_and_publish], and a view that continues after
    the report ends without a response (Flask's 500) when no error
    handler is registered for the exception. *)
Theorem log_and_publish_spec (r : report) (n : Z) w :
  logging_level (report_type r) = Some n ->
  let key := "report." +:+ lower (report_type r) in
  let answer := publisher_publish X r key (outside w) in
  log_and_publish X r w =
    (fst answer, advance w (snd answer) [ELog n (msg r); EPublish r key])
  /\ (forall e (k : unit -> M X json),
        fst answer = Raise e ->
        errorhandler e = None ->
        handle X (bind X (log_and_publish X r) k) w =
          (Unhandled e,
           advance w (snd answer) [ELog n (msg r); EPublish r key])
        /\ status_of (fst (handle X (bind X (log_and_publish X r) k) w)) = 500).
Proof.
  intros Hn key answer. split; [by apply log_and_publish_eq|].
  intros e k He Hnone.
  assert (E : handle X (bind X (log_and_publish X r) k) w =
          (Unhandled e,
           advance w (snd answer) [ELog n (msg r); EPublish r key])).
  { apply handle_unhandled; [|done].
    unfold bind. rewrite (log_and_publish_eq _ _ _ Hn).
    fold key answer. by rewrite He. }
  by rewrite E.
Qed.

(** ** The connection cache *)

Lemma constructions_app (t1 t2 : list effect) :
  constructions (t1 ++ t2) = constructions t1 ++ constructions t2.
Proof.
  induction t1 as [|e t1 IH]; [done|].
  destruct e; simpl; by rewrite IH.
Qed.

Lemma get_hive_cached (process : string) w h :
  hives w !! process = Some h -> get_hive C X process w = (Ok h, w).
Proof. intros E. unfold get_hive. by rewrite E. Qed.

Lemma get_hive_unknown (process : string) w :
  hives w !! process = None ->
  process_lookup C !! process = None ->
  get_hive C X process w =
    (Raise (ProcessNotFoundError ("Process " +:+ process +:+ " not known")),
     w).
Proof. intros E1 E2. unfold get_hive. by rewrite E1, E2. Qed.

Lemma get_hive_fresh (process : string) w d :
  hives w !! process = None ->
  process_lookup C !! process = Some d ->
  get_hive C X process w =
    (Ok {| hive_url := hive_uri d;
           hive_oid := List.length (constructions (trace w)) |},
     {| hives :=
          <[process := {| hive_url := hive_uri d;
                          hive_oid := List.length (constructions (trace w)) |}]>
            (hives w);
        outside := outside w;
        trace :=
          trace w ++
          [ENewHive process
             {| hive_url := hive_uri d;
                hive_oid := List.length (constructions (trace w)) |}] |}).
Proof. intros E1 E2. unfold get_hive. by rewrite E1, E2. Qed.

(** What a successful [get_hive] leaves: the connection is cached under
    the name, the outside is untouched, the cache only grew, and a name
    that was cached keeps the whole world as it was. *)
Lemma get_hive_Ok (process : string) w h w1 :
  get_hive C X process w = (Ok h, w1) ->
  hives w1 !! process = Some h
  /\ outside w1 = outside w
  /\ (trace w1 = trace w \/ trace w1 = trace w ++ [ENewHive process h])
  /\ (forall h0, hives w !! process = Some h0 -> h = h0 /\ w1 = w)
  /\ (forall q, q <> process -> hives w1 !! q = hives w !! q).
Proof.
  unfold get_hive. intros E.
  destruct (hives w !! process) as [h0|] eqn:Ec.
  - injection E as <- <-. repeat split; auto; congruence.
  - destruct (process_lookup C !! process) as [d|]; [|done].
    injection E as <- <-. simpl.
    repeat split; auto; try done.
    + apply lookup_insert_eq.
    + intros q Hq. by apply lookup_insert_ne.
Qed.

Lemma pool_inv_advance w o es :
  constructions es = [] -> pool_inv C X w -> pool_inv C X (advance w o es).
Proof.
  intros Hes (Hnd & Hiff & Huri). unfold pool_inv, advance; simpl.
  rewrite constructions_app, Hes, app_nil_r. done.
Qed.

Lemma get_hive_pool_inv (process : string) w :
  pool_inv C X w -> pool_inv C X (snd (get_hive C X process w)).
Proof.
  intros Hinv. pose proof Hinv as (Hnd & Hiff & Huri).
  unfold get_hive.
  destruct (hives w !! process) as [h0|] eqn:Ec; [done|].
  destruct (process_lookup C !! process) as [d|] eqn:Ed; [|done].
  simpl. set (h := {| hive_url := hive_uri d; hive_oid := _ |}).
  unfold pool_inv; simpl. rewrite constructions_app; simpl.
  split; [|split].
  - rewrite fmap_app; simpl. apply NoDup_app. split; [done|]. split.
    + intros q Hq Hq'. apply list_elem_of_singleton in Hq' as ->.
      apply list_elem_of_fmap in Hq as ([q h1] & Heq & Hin). simpl in Heq.
      subst q. apply Hiff in Hin. congruence.
    + apply NoDup_singleton.
  - intros q h1. rewrite elem_of_app, list_elem_of_singleton.
    destruct (decide (q = process)) as [->|Hne].
    + rewrite lookup_insert_eq. split.
      * intros [= <-]. by right.
      * intros [Hin|[= <-]]; [|done]. apply Hiff in Hin. congruence.
    + rewrite lookup_insert_ne by done. rewrite Hiff. split; [by left|].
      intros [Hin|[= -> _]]; done.
  - intros q h1. destruct (decide (q = process)) as [->|Hne].
    + rewrite lookup_insert_eq. intros [= <-]. by exists d.
    + rewrite lookup_insert_ne by done. apply Huri.
Qed.

(** C8.  [get_hive] keeps the cache invariant (one connection object
    per process name at most, the cache holding exactly the connections
    built), and from a world that satisfies it:
    - a cached name returns the cached object and changes nothing, so
      no connection is built;
    - a known name that is not cached builds one [HiveInstance] from
      the [hive_uri] of its descriptor, stores it under the name and
      returns it;
    - a name that [process_lookup] does not have raises
      [ProcessNotFoundError] and leaves cache and trace as they were. *)
Theorem get_hive_pool (process : string) w :
  pool_inv C X w ->
  pool_inv C X (snd (get_hive C X process w))
  /\ (forall h, hives w !! process = Some h ->
        get_hive C X process w = (Ok h, w))
  /\ (forall d, hives w !! process = None ->
        process_lookup C !! process = Some d ->
        exists h w',
          get_hive C X process w = (Ok h, w')
          /\ hive_url h = hive_uri d
          /\ hives w' = <[process := h]> (hives w)
          /\ outside w' = outside w
          /\ trace w' = trace w ++ [ENewHive process h]
          /\ constructions (trace w') =
               constructions (trace w) ++ [(process, h)])
  /\ (process_lookup C !! process = None ->
        get_hive C X process w =
          (Raise (ProcessNotFoundError
                    ("Process " +:+ process +:+ " not known")), w)).
Proof.
  intros Hinv. split; [by apply get_hive_pool_inv|].
  split; [apply get_hive_cached|]. split.
  - intros d Hc Hd. eexists _, _. split; [by apply get_hive_fresh|].
    simpl. rewrite constructions_app. done.
  - intros Hd. apply get_hive_unknown; [|done].
    destruct (hives w !! process) as [h|] eqn:Ec; [|done].
    destruct Hinv as (_ & _ & Huri).
    destruct (Huri _ _ Ec) as (d & Hd' & _). congruence.
Qed.

(** ** Dictionaries *)

Lemma dict_get_set_eq (k : string) (v : json) (d : list (string * json)) :
  dict_get k (dict_set k v d) = Some v.
Proof.
  induction d as [|[k' v'] d IH]; simpl.
  - by rewrite String.eqb_refl.
  - destruct (String.eqb k k') eqn:E; simpl; by rewrite E.
Qed.

Lemma dict_get_set_ne (k k0 : string) (v : json) (d : list (string * json)) :
  k0 <> k -> dict_get k0 (dict_set k v d) = dict_get k0 d.
Proof.
  intros Hne. induction d as [|[k' v'] d IH]; simpl.
  - apply String.eqb_neq in Hne. by rewrite Hne.
  - destruct (String.eqb k k') eqn:E; simpl; [|by rewrite IH].
    apply String.eqb_eq in E as <-.
    apply String.eqb_neq in Hne. by rewrite Hne.
Qed.

(** ** Deleting a job *)

(** C9.  DELETE /jobs/{process}/{id}, once the connection [h] for the
    process is obtained and the backend has handed out the job [j]:
    - when the backend rejects the deletion ([ValueError s]) the answer
      is 404 with [{error: s}]; the cache still maps the process to [h],
      it is the cache [get_hive] left, and when the process was cached
      before the request the cache is the one the request found;
    - when the deletion succeeds the answer is 200 with
      [{id: id, process: process}]. *)
Theorem delete_job_spec (process : string) (id : Z) (req : request)
    w h w1 (j : Job) o2 :
  get_hive C X process w = (Ok h, w1) ->
  hive_get_job_by_id X h id (outside w1) = (Ok j, o2) ->
  (forall s o3,
      hive_delete_job X h j o2 = (Raise (ValueError s), o3) ->
      app C X (DELETE_job process id) req w =
        (Response 404 (error_body s),
         advance w1 o3 [EGetJob h id; EDeleteJob h j; ELog 40 s])
      /\ hives (snd (app C X (DELETE_job process id) req w)) !! process
         = Some h
      /\ hives (snd (app C X (DELETE_job process id) req w)) = hives w1
      /\ (forall h0, hives w !! process = Some h0 ->
            h0 = h
            /\ hives (snd (app C X (DELETE_job process id) req w))
               = hives w))
  /\ (forall o3,
      hive_delete_job X h j o2 = (Ok tt, o3) ->
      app C X (DELETE_job process id) req w =
        (Response 200 (JObj [("id", JNum id); ("process", JStr process)]),
         advance w1 o3 [EGetJob h id; EDeleteJob h j])).
Proof.
  intros Hh Hj. split.
  - intros s o3 Hd.
    assert (E : app C X (DELETE_job process id) req w =
              (Response 404 (error_body s),
               advance w1 o3 [EGetJob h id; EDeleteJob h j; ELog 40 s])).
    { unfold app, handle, delete_job, bind. rewrite Hh.
      unfold call; simpl. rewrite Hj; simpl.
      unfold except_ValueError; simpl. rewrite Hd; simpl.
      unfold raise, emit; simpl. by rewrite !advance_advance. }
    rewrite E; simpl.
    destruct (get_hive_Ok _ _ _ _ Hh) as (Hin & _ & _ & Hsame & _).
    split; [done|]. split; [done|]. split; [done|].
    intros h0 Hc. by destruct (Hsame _ Hc) as [-> ->].
  - intros o3 Hd.
    unfold app, handle, delete_job, bind. rewrite Hh.
    unfold call; simpl. rewrite Hj; simpl.
    unfold except_ValueError; simpl. rewrite Hd; simpl.
    unfold ret. by rewrite !advance_advance.
Qed.

(** ** Reading a job *)

Lemma results_ok (process : string) (id : Z) w w1 h w2 (doc : json) o3 :
  log_and_publish X
    (make_report "INFO"
       ("Retrieving job from " +:+ process +:+ " with ID " +:+ pretty id)) w
    = (Ok tt, w1) ->
  get_hive C X process w1 = (Ok h, w2) ->
  hive_get_result_for_job_id X h id (outside w2) = (Ok doc, o3) ->
  results C X process id w = (Ok doc, advance w2 o3 [EGetResult h id]).
Proof.
  intros Hl Hh Hr. unfold results, bind. rewrite Hl.
  unfold except_ValueError, bind. rewrite Hh.
  unfold call. by rewrite Hr.
Qed.

Lemma results_email_ok (email process : string) (id : Z)
    w w1 h w2 (j : Job) o3 (fields : list (string * json)) o4 :
  log_and_publish X
    (make_report "INFO"
       ("Retrieving job with ID " +:+ pretty id +:+ " for " +:+ email)) w
    = (Ok tt, w1) ->
  get_hive C X process w1 = (Ok h, w2) ->
  hive_get_job_by_id X h id (outside w2) = (Ok j, o3) ->
  hive_get_result_for_job_id X h id o3 = (Ok (JObj fields), o4) ->
  results_email C X email process id w =
    (Ok (JObj (dict_set "email" (JStr email) fields)),
     advance w2 o4 [EGetJob h id; EGetResult h id]).
Proof.
  intros Hl Hh Hj Hr. unfold results_email, bind. rewrite Hl, Hh.
  unfold except_ValueError, bind, call; simpl. rewrite Hj; simpl.
  rewrite Hr; simpl. unfold ret. by rewrite advance_advance.
Qed.

(** C6.  How GET /jobs/{process}/{id} reads [format]:
    - absent: the view is [results]; when the report is published, the
      connection obtained and the backend returns a document, that
      document is the 200 answer as it is;
    - [email] without an [email] parameter: 400 with
      [{error: "Email not specified"}];
    - [email] with [email=e]: the view is [results_email e]; when the
      backend returns the job and a result document, the 200 answer is
      that document with [email] set to [e] and its other fields as
      they were; the calls made are the two backend reads, no mail
      leaves;
    - any other value [v]: 400 with
      [{error: "Format v not known"}]. *)
Theorem job_format_dispatch (process : string) (id : Z) (req : request) w :
  (args req !! "format" = None ->
   job C X process id req = results C X process id
   /\ forall w1 h w2 doc o3,
       log_and_publish X
         (make_report "INFO"
            ("Retrieving job from " +:+ process +:+ " with ID "
             +:+ pretty id)) w = (Ok tt, w1) ->
       get_hive C X process w1 = (Ok h, w2) ->
       hive_get_result_for_job_id X h id (outside w2) = (Ok doc, o3) ->
       app C X (GET_job process id) req w =
         (Response 200 doc, advance w2 o3 [EGetResult h id]))
  /\ (args req !! "format" = Some "email" ->
      args req !! "email" = None ->
      app C X (GET_job process id) req w =
        (Response 400 (error_body "Email not specified"),
         emit (ELog 40 "Email not specified") w))
  /\ (forall email,
      args req !! "format" = Some "email" ->
      args req !! "email" = Some email ->
      job C X process id req = results_email C X email process id
      /\ forall w1 h w2 j o3 fields o4,
          log_and_publish X
            (make_report "INFO"
               ("Retrieving job with ID " +:+ pretty id +:+ " for "
                +:+ email)) w = (Ok tt, w1) ->
          get_hive C X process w1 = (Ok h, w2) ->
          hive_get_job_by_id X h id (outside w2) = (Ok j, o3) ->
          hive_get_result_for_job_id X h id o3 = (Ok (JObj fields), o4) ->
          app C X (GET_job process id) req w =
            (Response 200 (JObj (dict_set "email" (JStr email) fields)),
             advance w2 o4 [EGetJob h id; EGetResult h id])
          /\ dict_get "email" (dict_set "email" (JStr email) fields)
             = Some (JStr email)
          /\ (forall k, k <> "email" ->
                dict_get k (dict_set "email" (JStr email) fields)
                = dict_get k fields))
  /\ (forall v,
      args req !! "format" = Some v ->
      v <> "email" ->
      app C X (GET_job process id) req w =
        (Response 400 (error_body ("Format " +:+ v +:+ " not known")),
         emit (ELog 40 ("Format " +:+ v +:+ " not known")) w)).
Proof.
  split; [|split; [|split]].
  - intros Hf. split; [unfold job; by rewrite Hf|].
    intros w1 h w2 doc o3 Hl Hh Hr.
    unfold app. apply handle_ok. unfold job. rewrite Hf.
    by apply (results_ok _ _ _ w1).
  - intros Hf He. unfold app. apply handle_http.
    unfold job. by rewrite Hf, He.
  - intros email Hf He.
    assert (Hjob : job C X process id req
                   = results_email C X email process id).
    { unfold job. by rewrite Hf, He. }
    split; [done|].
    intros w1 h w2 j o3 fields o4 Hl Hh Hj Hr. split; [|split].
    + unfold app. apply handle_ok. rewrite Hjob.
      by apply (results_email_ok _ _ _ _ w1 _ _ j o3).
    + apply dict_get_set_eq.
    + intros k Hk. by apply dict_get_set_ne.
  - intros v Hf Hv. unfold app. apply handle_http.
    unfold job. rewrite Hf. apply String.eqb_neq in Hv. by rewrite Hv.
Qed.

(** C10.  GET /jobs/{process}/{id}?format=email&email= (the parameter
    is there and empty): the test [email == None] does not fire, the
    view is [results_email] with the empty address, and when the backend
    returns the job and a result document the 200 answer is that
    document with [email] set to the empty string. *)
Theorem job_empty_email (process : string) (id : Z) (req : request) w :
  args req !! "format" = Some "email" ->
  args req !! "email" = Some EmptyString ->
  job C X process id req = results_email C X EmptyString process id
  /\ forall w1 h w2 j o3 fields o4,
      log_and_publish X
        (make_report "INFO"
           ("Retrieving job with ID " +:+ pretty id +:+ " for ")) w
        = (Ok tt, w1) ->
      get_hive C X process w1 = (Ok h, w2) ->
      hive_get_job_by_id X h id (outside w2) = (Ok j, o3) ->
      hive_get_result_for_job_id X h id o3 = (Ok (JObj fields), o4) ->
      app C X (GET_job process id) req w =
        (Response 200 (JObj (dict_set "email" (JStr EmptyString) fields)),
         advance w2 o4 [EGetJob h id; EGetResult h id])
      /\ dict_get "email" (dict_set "email" (JStr EmptyString) fields)
         = Some (JStr EmptyString).
Proof.
  intros Hf He.
  assert (Hjob : job C X process id req
                 = results_email C X EmptyString process id).
  { unfold job. by rewrite Hf, He. }
  split; [done|].
  intros w1 h w2 j o3 fields o4 Hl Hh Hj Hr. split.
  - unfold app. apply handle_ok. rewrite Hjob.
    by apply (results_email_ok _ _ _ _ w1 _ _ j o3).
  - apply dict_get_set_eq.
Qed.

(** ** Submitting an event *)

Lemma log_and_publish_debug (m : string) w o' :
  publisher_publish X (make_report "DEBUG" m) "report.debug" (outside w)
    = (Ok tt, o') ->
  log_and_publish X (make_report "DEBUG" m) w =
    (Ok tt,
     advance w o'
       [ELog 10 m; EPublish (make_report "DEBUG" m) "report.debug"]).
Proof.
  intros E. rewrite (log_and_publish_eq _ 10) by done.
  change ("report." +:+ lower (report_type (make_report "DEBUG" m)))
    with "report.debug".
  by rewrite E.
Qed.

Lemma get_hive_known (process : string) d w :
  process_lookup C !! process = Some d ->
  exists h w1, get_hive C X process w = (Ok h, w1).
Proof.
  intros Hd. unfold get_hive.
  destruct (hives w !! process) as [h|]; [by eexists _, _|].
  rewrite Hd. by eexists _, _.
Qed.

Lemma creations_succeed_length (event : json) (processes : list string)
    w created w' :
  creations_succeed C X event processes w created w' ->
  List.length created = List.length processes.
Proof. induction 1; simpl; congruence. Qed.

(** When the creations succeed the loop runs to its end, appends the
    entry of every answer and leaves the last world. *)
Lemma submit_loop_creations (event : json) (processes : list string)
    w created w' :
  creations_succeed C X event processes w created w' ->
  forall acc,
    submit_loop C X event processes acc w
    = (Ok (acc ++ process_entries processes created), w').
Proof.
  induction 1 as [w|process rest w o1 h w2 d j o3 t o4 created w'
                    Hpub Hhive Hd Hcreate Hdelay _ IH]; intros acc.
  - simpl. by rewrite app_nil_r.
  - simpl. unfold bind at 1. unfold submit_process, bind.
    rewrite (log_and_publish_debug _ _ _ Hpub), Hhive.
    unfold get_analysis. rewrite Hd. unfold ret at 1.
    unfold except_ValueError, call. rewrite Hcreate; simpl.
    rewrite Hdelay; simpl.
    rewrite advance_advance. simpl. rewrite IH.
    by rewrite <- app_assoc.
Qed.

(** Conversely, a loop that ran to its end is a run in which every
    creation succeeded: the relation asks for nothing more. *)
Lemma submit_loop_creations_inv (event : json) (processes : list string) :
  forall acc w acc' w',
    submit_loop C X event processes acc w = (Ok acc', w') ->
    exists created,
      creations_succeed C X event processes w created w'
      /\ acc' = acc ++ process_entries processes created.
Proof.
  induction processes as [|process rest IH]; intros acc w acc' w'; simpl.
  - intros [= <- <-]. exists []. split; [constructor|].
    by rewrite app_nil_r.
  - unfold bind at 1. unfold submit_process, bind.
    rewrite (log_and_publish_eq _ 10) by done.
    change ("report." +:+ lower (report_type
              (make_report "DEBUG" ("Submitting process " +:+ process))))
      with "report.debug".
    destruct (publisher_publish X _ _ (outside w)) as [[[]|?] o1] eqn:Hpub;
      simpl; [|done].
    destruct (get_hive C X process _) as [[h|?] w2] eqn:Hhive; [|done].
    unfold get_analysis.
    destruct (process_lookup C !! process) as [d|] eqn:Hd; [|done].
    unfold ret at 1. unfold except_ValueError, call.
    destruct (hive_create_job X h (analysis d) _ (outside w2))
      as [[j|[]] o3] eqn:Hcreate; simpl; try done.
    destruct (process_result_delay X event process (job_id j) o3)
      as [[t|?] o4] eqn:Hdelay; simpl; [|done].
    rewrite advance_advance. simpl.
    intros Hrest. destruct (IH _ _ _ _ Hrest) as (created & Hrun & ->).
    exists ((job_id j, t) :: created). split.
    + by eapply creations_step.
    + unfold process_entries; simpl. by rewrite <- app_assoc.
Qed.

(** C1.  A POST /jobs request with a JSON content type whose event
    [type] maps to the processes [processes] in [event_lookup], and whose
    job creations all succeed ([created] being the job and task
    identifiers the backend and the task queue answered, [w'] the world
    their last answer left), is answered 200 with
    [{processes: [...], event: <the submitted event>}], in the world
    [w']; the array has one entry per process of the table, in the order
    of the table, and the entry of a process is
    [{process, job, task}] with the identifiers answered for it. *)
Theorem submit_job_success (req : request) w
    (ct : string) (fields : list (string * json)) (event_type : string)
    (processes : list string) (created : list (Z * string)) w' :
  headers req !! "Content-Type" = Some ct ->
  json_pattern_match ct = true ->
  json_body req = JObj fields ->
  dict_get "type" fields = Some (JStr event_type) ->
  event_lookup C !! event_type = Some processes ->
  creations_succeed C X (json_body req) processes w created w' ->
  app C X POST_jobs req w =
    (Response 200
       (JObj [("processes", JArr (process_entries processes created));
              ("event", json_body req)]),
     w')
  /\ List.length (process_entries processes created)
     = List.length processes
  /\ (forall i p, processes !! i = Some p ->
        exists j t,
          created !! i = Some (j, t)
          /\ process_entries processes created !! i
             = Some (JObj [("process", JStr p); ("job", JNum j);
                           ("task", JStr t)])).
Proof.
  intros Hct Hyes Hbody Hty Hev Hrun.
  pose proof (creations_succeed_length _ _ _ _ _ Hrun) as Hlen.
  split; [|split].
  - unfold app. apply handle_ok.
    rewrite (submit_job_json _ _ _ Hct Hyes).
    unfold bind at 1. rewrite Hbody at 1.
    unfold get_processes_for_event. rewrite Hty, Hev. unfold ret at 1.
    unfold bind. by rewrite (submit_loop_creations _ _ _ _ _ Hrun).
  - unfold process_entries. rewrite length_zip_with. lia.
  - intros i p Hp.
    destruct (lookup_lt_is_Some_2 created i) as [[j t] Hc].
    { rewrite Hlen. by eapply lookup_lt_Some. }
    exists j, t. split; [done|]. unfold process_entries.
    rewrite lookup_zip_with, Hp; simpl. by rewrite Hc.
Qed.

(** ** What a request adds to the trace *)

Section Emits.

Context (P : effect -> Prop).

Lemma emits_ret {A} (a : A) : emits P (ret X a).
Proof. intros w. exists []. simpl. by rewrite app_nil_r. Qed.

Lemma emits_raise {A} (e : exn) : emits P (@raise X A e).
Proof. intros w. exists []. simpl. by rewrite app_nil_r. Qed.

Lemma emits_bind {A B} (m : M X A) (k : A -> M X B) :
  emits P m -> (forall a, emits P (k a)) -> emits P (bind X m k).
Proof.
  intros Hm Hk w. unfold bind.
  destruct (Hm w) as (es & E & HP).
  destruct (m w) as [[a|e] w1]; simpl in E.
  - destruct (Hk a w1) as (es' & E' & HP').
    exists (es ++ es'). rewrite E', E, <- app_assoc.
    split; [done|]. by apply Forall_app.
  - by exists es.
Qed.

Lemma emits_except {A} (m : M X A) (h : string -> M X A) :
  emits P m -> (forall s, emits P (h s)) ->
  emits P (except_ValueError X m h).
Proof.
  intros Hm Hh w. unfold except_ValueError.
  destruct (Hm w) as (es & E & HP).
  destruct (m w) as [[a|e] w1]; simpl in E; [by exists es|].
  destruct e as [| | |s| | | |]; try by exists es.
  destruct (Hh s w1) as (es' & E' & HP').
  exists (es ++ es'). rewrite E', E, <- app_assoc.
  split; [done|]. by apply Forall_app.
Qed.

Lemma emits_call {A} (e : effect) (f : ext X -> outcome A * ext X) :
  P e -> emits P (call X e f).
Proof. intros He w. exists [e]. split; [done|]. by apply Forall_singleton. Qed.

Lemma emits_get_hive (process : string) :
  (forall h, P (ENewHive process h)) -> emits P (get_hive C X process).
Proof.
  intros HP w. unfold get_hive.
  destruct (hives w !! process) as [h|].
  { exists []. simpl. by rewrite app_nil_r. }
  destruct (process_lookup C !! process) as [d|].
  - eexists [_]. split; [done|]. by apply Forall_singleton.
  - exists []. simpl. by rewrite app_nil_r.
Qed.

Lemma emits_log_and_publish (r : report) :
  (forall n s, P (ELog n s)) -> (forall key, P (EPublish r key)) ->
  emits P (log_and_publish X r).
Proof.
  intros Hlog Hpub. unfold log_and_publish.
  destruct (logging_level (report_type r)); [|apply emits_raise].
  apply emits_bind; [|intros _; by apply emits_call].
  intros w. eexists [_]. split; [done|]. by apply Forall_singleton.
Qed.

Lemma emits_handle (view : M X json) :
  emits P view -> (forall n s, P (ELog n s)) ->
  forall w, exists es,
    trace (snd (handle X view w)) = trace w ++ es /\ Forall P es.
Proof.
  intros Hv Hlog w. unfold handle.
  destruct (Hv w) as (es & E & HP).
  destruct (view w) as [[a|e] w1]; simpl in E; [by exists es|].
  destruct (errorhandler e) as [[code s]|]; [|by exists es].
  exists (es ++ [ELog 40 s]). simpl. rewrite E, <- app_assoc.
  split; [done|]. apply Forall_app. split; [done|].
  by apply Forall_singleton.
Qed.

End Emits.

Lemma submit_job_no_delete (req : request) :
  emits (fun e => is_delete e = false) (submit_job C X req).
Proof.
  assert (Hloop : forall event processes acc,
             emits (fun e => is_delete e = false)
               (submit_loop C X event processes acc)).
  { intros event processes.
    induction processes as [|process rest IH]; intros acc; simpl.
    - apply emits_ret.
    - apply emits_bind; [|intros entry; apply IH].
      unfold submit_process.
      apply emits_bind; [by apply emits_log_and_publish|intros _].
      apply emits_bind; [by apply emits_get_hive|intros h].
      apply emits_bind.
      { unfold get_analysis.
        destruct (process_lookup C !! process);
          [apply emits_ret|apply emits_raise]. }
      intros a. apply emits_bind.
      { apply emits_except; [by apply emits_call|].
        intros s. apply emits_raise. }
      intros j. apply emits_bind; [by apply emits_call|].
      intros t. apply emits_ret. }
  unfold submit_job. apply emits_bind.
  { unfold header. destruct (headers req !! "Content-Type");
      [apply emits_ret|apply emits_raise]. }
  intros ct. destruct (json_pattern_match ct); [|apply emits_raise].
  apply emits_bind.
  { unfold get_processes_for_event.
    destruct (json_body req) as [| | | | |fields]; try apply emits_raise.
    destruct (dict_get "type" fields) as [[| | |t| |]|];
      try apply emits_raise.
    destruct (event_lookup C !! t); [apply emits_ret|apply emits_raise]. }
  intros processes. apply emits_bind; [apply Hloop|].
  intros entries. apply emits_ret.
Qed.

(** ** A submission that fails part of the way *)

Lemma submit_loop_app (event : json) (pre rest : list string) :
  forall acc w,
    submit_loop C X event (pre ++ rest) acc w =
      match submit_loop C X event pre acc w with
      | (Ok acc', w1) => submit_loop C X event rest acc' w1
      | (Raise e, w1) => (Raise e, w1)
      end.
Proof.
  induction pre as [|process pre IH]; intros acc w; [done|].
  simpl. unfold bind.
  destruct (submit_process C X event process w) as [[entry|e] w1]; [|done].
  apply IH.
Qed.

Lemma submit_process_entry (event : json) (process : string) w entry w' :
  submit_process C X event process w = (Ok entry, w') ->
  exists j t, entry = process_entry process j t.
Proof.
  unfold submit_process, bind, except_ValueError, call, raise, ret.
  destruct (log_and_publish _ _ _) as [[[]|?] ?]; [|done].
  destruct (get_hive _ _ _ _) as [[h|?] ?]; [|done].
  destruct (get_analysis _ _ _) as [[a|?] ?]; [|done].
  simpl.
  destruct (hive_create_job _ _ _ _ _) as [[j|[]] ?]; simpl; try done.
  destruct (process_result_delay _ _ _ _ _) as [[t|?] ?]; simpl; [|done].
  intros [= <- _]. by eexists _, _.
Qed.

Lemma submit_loop_shape (event : json) (pre : list string) :
  forall acc w acc' w1,
    submit_loop C X event pre acc w = (Ok acc', w1) ->
    exists created,
      acc' = acc ++ process_entries pre created
      /\ List.length created = List.length pre.
Proof.
  induction pre as [|process pre IH]; intros acc w acc' w1; simpl.
  - intros [= <- _]. exists []. by rewrite app_nil_r.
  - unfold bind.
    destruct (submit_process C X event process w) as [[entry|e] w2] eqn:E;
      [|done].
    destruct (submit_process_entry _ _ _ _ _ E) as (j & t & ->).
    intros Hrest. destruct (IH _ _ _ _ Hrest) as (created & -> & Hlen).
    exists ((j, t) :: created). simpl. rewrite <- app_assoc.
    by rewrite Hlen.
Qed.

Lemma submit_process_rejected (event : json) (process : string)
    w1 w2 h w3 d s o4 :
  log_and_publish X
    (make_report "DEBUG" ("Submitting process " +:+ process)) w1
    = (Ok tt, w2) ->
  get_hive C X process w2 = (Ok h, w3) ->
  process_lookup C !! process = Some d ->
  hive_create_job X h (analysis d) (JObj [("event", event)]) (outside w3)
    = (Raise (ValueError s), o4) ->
  submit_process C X event process w1 =
    (Raise (HTTPRequestError s 404),
     advance w3 o4 [ECreateJob h (analysis d) (JObj [("event", event)])]).
Proof.
  intros Hl Hh Hd Hc. unfold submit_process, bind. rewrite Hl, Hh.
  unfold get_analysis. rewrite Hd. unfold ret at 1.
  unfold except_ValueError, call. by rewrite Hc.
Qed.

(** C3.  POST /jobs for an event whose processes are
    [pre ++ process :: post]: once the loop has created the jobs of
    [pre] (world [w1], entries [acc], one per process of [pre]) and the
    backend rejects the job of [process] with [ValueError s], the answer
    is 404 with the single field [{error: s}]; the world is the one the
    rejected call left plus the handler's ERROR log line, so the
    processes of [post] are never tried and nothing is undone: no call
    of the whole request is a deletion. *)
Theorem submit_job_partial_failure (req : request) w (ct : string)
    (fields : list (string * json)) (event_type : string)
    (pre post : list string) (process : string)
    (acc : list json) w1 w2 h w3 d (s : string) o4 :
  headers req !! "Content-Type" = Some ct ->
  json_pattern_match ct = true ->
  json_body req = JObj fields ->
  dict_get "type" fields = Some (JStr event_type) ->
  event_lookup C !! event_type = Some (pre ++ process :: post) ->
  submit_loop C X (json_body req) pre [] w = (Ok acc, w1) ->
  log_and_publish X
    (make_report "DEBUG" ("Submitting process " +:+ process)) w1
    = (Ok tt, w2) ->
  get_hive C X process w2 = (Ok h, w3) ->
  process_lookup C !! process = Some d ->
  hive_create_job X h (analysis d) (JObj [("event", json_body req)])
    (outside w3) = (Raise (ValueError s), o4) ->
  app C X POST_jobs req w =
    (Response 404 (JObj [("error", JStr s)]),
     advance w3 o4
       [ECreateJob h (analysis d) (JObj [("event", json_body req)]);
        ELog 40 s])
  /\ (exists created,
        acc = process_entries pre created
        /\ List.length created = List.length pre)
  /\ (exists es,
        trace (snd (app C X POST_jobs req w)) = trace w ++ es
        /\ Forall (fun e => is_delete e = false) es).
Proof.
  intros Hct Hyes Hbody Hty Hev Hpre Hl Hh Hd Hc.
  split; [|split].
  - unfold app, handle.
    rewrite (submit_job_json _ _ _ Hct Hyes).
    unfold bind at 1. rewrite Hbody at 1.
    unfold get_processes_for_event. rewrite Hty, Hev. unfold ret at 1.
    unfold bind. rewrite submit_loop_app, Hpre. simpl. unfold bind.
    rewrite (submit_process_rejected _ _ _ _ _ _ _ _ _ Hl Hh Hd Hc).
    simpl. unfold emit; simpl. by rewrite advance_advance.
  - destruct (submit_loop_shape _ _ _ _ _ _ Hpre) as (created & E & Hlen).
    by exists created.
  - unfold app. apply emits_handle; [apply submit_job_no_delete|done].
Qed.

(** ** The cache over the life of the service *)

Lemma pool_inv_start o : pool_inv C X (Build_world X ∅ o []).
Proof.
  split; [apply NoDup_nil_2|]. split.
  - intros p h. simpl. rewrite lookup_empty. split; [done|].
    by intros ?%elem_of_nil.
  - intros p h. simpl. by rewrite lookup_empty.
Qed.

Lemma pool_safe_ret {A} (a : A) : pool_safe C (ret X a).
Proof. by intros w. Qed.

Lemma pool_safe_raise {A} (e : exn) : pool_safe C (@raise X A e).
Proof. by intros w. Qed.

Lemma pool_safe_bind {A B} (m : M X A) (k : A -> M X B) :
  pool_safe C m -> (forall a, pool_safe C (k a)) -> pool_safe C (bind X m k).
Proof.
  intros Hm Hk w Hw. unfold bind. specialize (Hm w Hw).
  destruct (m w) as [[a|e] w1]; simpl in Hm; [by apply Hk|done].
Qed.

Lemma pool_safe_except {A} (m : M X A) (h : string -> M X A) :
  pool_safe C m -> (forall s, pool_safe C (h s)) ->
  pool_safe C (except_ValueError X m h).
Proof.
  intros Hm Hh w Hw. unfold except_ValueError. specialize (Hm w Hw).
  destruct (m w) as [[a|e] w1]; simpl in Hm; [done|].
  destruct e as [| | |s| | | |]; try done. by apply Hh.
Qed.

Lemma pool_safe_call {A} (e : effect) (f : ext X -> outcome A * ext X) :
  constructions [e] = [] -> pool_safe C (call X e f).
Proof. intros He w Hw. unfold call; simpl. by apply pool_inv_advance. Qed.

Lemma pool_safe_get_hive (process : string) :
  pool_safe C (get_hive C X process).
Proof. intros w. apply get_hive_pool_inv. Qed.

Lemma pool_safe_log_and_publish (r : report) :
  pool_safe C (log_and_publish X r).
Proof.
  unfold log_and_publish.
  destruct (logging_level (report_type r)); [|apply pool_safe_raise].
  apply pool_safe_bind; [|intros _; by apply pool_safe_call].
  intros w Hw. by apply pool_inv_advance.
Qed.

Lemma pool_safe_get_analysis (process : string) :
  pool_safe C (get_analysis C X process).
Proof.
  unfold get_analysis.
  destruct (process_lookup C !! process);
    [apply pool_safe_ret|apply pool_safe_raise].
Qed.

Lemma pool_safe_set_email (doc : json) (email : string) :
  pool_safe C (set_email X doc email).
Proof.
  unfold set_email.
  destruct doc; (apply pool_safe_ret || apply pool_safe_raise).
Qed.

Create HintDb pool.

Local Hint Resolve pool_safe_ret pool_safe_raise pool_safe_get_hive
  pool_safe_log_and_publish pool_safe_get_analysis pool_safe_set_email
  : pool.

Ltac pool_step :=
  first
    [ solve [auto with pool]
    | apply pool_safe_call; reflexivity
    | apply pool_safe_except; [|intro]
    | apply pool_safe_bind; [|intro] ].

Lemma pool_safe_submit_job (req : request) : pool_safe C (submit_job C X req).
Proof.
  assert (Hloop : forall event processes acc,
             pool_safe C (submit_loop C X event processes acc)).
  { intros event processes.
    induction processes as [|process rest IH]; intros acc; simpl.
    - apply pool_safe_ret.
    - apply pool_safe_bind; [|intros entry; apply IH].
      unfold submit_process. repeat pool_step. }
  unfold submit_job. apply pool_safe_bind.
  { unfold header. destruct (headers req !! "Content-Type"); auto with pool. }
  intros ct. destruct (json_pattern_match ct); [|apply pool_safe_raise].
  apply pool_safe_bind.
  { unfold get_processes_for_event.
    destruct (json_body req) as [| | | | |fields]; try apply pool_safe_raise.
    destruct (dict_get "type" fields) as [[| | |t| |]|];
      try apply pool_safe_raise.
    destruct (event_lookup C !! t); auto with pool. }
  intros processes. apply pool_safe_bind; [apply Hloop|].
  intros entries. apply pool_safe_ret.
Qed.

Lemma pool_safe_job (process : string) (id : Z) (req : request) :
  pool_safe C (job C X process id req).
Proof.
  unfold job. destruct (args req !! "format") as [v|].
  - destruct (String.eqb v "email"); [|apply pool_safe_raise].
    destruct (args req !! "email") as [email|]; [|apply pool_safe_raise].
    unfold results_email. repeat pool_step.
  - unfold results. repeat pool_step.
Qed.

(** From the start of the service on, every request leaves a cache that
    holds one connection per process name at most, each the only one
    ever built for that name. *)
Lemma app_pool_inv (r : route) (req : request) w :
  pool_inv C X w -> pool_inv C X (snd (app C X r req w)).
Proof.
  intros Hw.
  assert (Hh : forall view, pool_safe C view ->
                 pool_inv C X (snd (handle X view w))).
  { intros view Hv. unfold handle. specialize (Hv w Hw).
    destruct (view w) as [[a|e] w1]; simpl in Hv; [done|].
    destruct (errorhandler e) as [[code s]|]; [|done].
    by apply pool_inv_advance. }
  destruct r as [|process id|process id|process]; simpl; apply Hh.
  - apply pool_safe_submit_job.
  - apply pool_safe_job.
  - unfold delete_job. repeat pool_step.
  - unfold jobs. repeat pool_step.
Qed.

(** * Further properties of the module *)

(** ** The content-type test *)

Lemma prefix_iff_append (p s : string) :
  String.prefix p s = true <-> exists t, s = p +:+ t.
Proof.
  revert s. induction p as [|a p IH]; intros s.
  - split; [intros _; by exists s|intros _; by destruct s].
  - destruct s as [|b s]; simpl.
    + split; [done|]. by intros [t [=]].
    + destruct (ascii_dec a b) as [->|Hne].
      * rewrite IH. split; intros [t Ht]; exists t.
        -- by subst s.
        -- change (String b s = String b (p +:+ t)) in Ht. congruence.
      * split; [done|]. intros [t Ht].
        change (String b s = String a (p +:+ t)) in Ht. congruence.
Qed.

(** X1.  The content-type test accepts exactly the header values that
    start with [application/json]: the test is case sensitive, does not
    skip leading blanks, and accepts any continuation. *)
Theorem json_pattern_match_iff (ct : string) :
  json_pattern_match ct = true <->
  exists suffix, ct = "application/json" +:+ suffix.
Proof. unfold json_pattern_match. apply prefix_iff_append. Qed.

(** ** Edges of the submission *)

Lemma submit_job_resolved (req : request) w (ct : string)
    (fields : list (string * json)) (event_type : string)
    (processes : list string) :
  headers req !! "Content-Type" = Some ct ->
  json_pattern_match ct = true ->
  json_body req = JObj fields ->
  dict_get "type" fields = Some (JStr event_type) ->
  event_lookup C !! event_type = Some processes ->
  submit_job C X req w =
    bind X (submit_loop C X (json_body req) processes [])
      (fun entries =>
         ret X (JObj [("processes", JArr entries);
                      ("event", json_body req)])) w.
Proof.
  intros Hct Hyes Hbody Hty Hev.
  rewrite (submit_job_json _ _ _ Hct Hyes).
  unfold bind at 1. rewrite Hbody at 1.
  unfold get_processes_for_event. by rewrite Hty, Hev.
Qed.

(** X2.  An event type that the table maps to the empty list is
    answered 200 with an empty [processes] array and the event; no
    report is logged or published and the backend is not called. *)
Theorem submit_job_no_processes (req : request) w (ct : string)
    (fields : list (string * json)) (event_type : string) :
  headers req !! "Content-Type" = Some ct ->
  json_pattern_match ct = true ->
  json_body req = JObj fields ->
  dict_get "type" fields = Some (JStr event_type) ->
  event_lookup C !! event_type = Some [] ->
  app C X POST_jobs req w =
    (Response 200
       (JObj [("processes", JArr []); ("event", json_body req)]), w).
Proof.
  intros Hct Hyes Hbody Hty Hev. unfold app. apply handle_ok.
  by rewrite (submit_job_resolved _ _ _ _ _ _ Hct Hyes Hbody Hty Hev).
Qed.

(** X3.  When the table names a process that has neither a cached
    connection nor a descriptor, the submission stops there: after the
    jobs of the earlier processes and the DEBUG report of this one, the
    answer is 404 with [{error: "Process <p> not known"}]; no backend
    call is made for the process and the later ones are not tried. *)
Theorem submit_job_unknown_process (req : request) w (ct : string)
    (fields : list (string * json)) (event_type : string)
    (pre post : list string) (process : string)
    (acc : list json) w1 w2 :
  headers req !! "Content-Type" = Some ct ->
  json_pattern_match ct = true ->
  json_body req = JObj fields ->
  dict_get "type" fields = Some (JStr event_type) ->
  event_lookup C !! event_type = Some (pre ++ process :: post) ->
  submit_loop C X (json_body req) pre [] w = (Ok acc, w1) ->
  log_and_publish X
    (make_report "DEBUG" ("Submitting process " +:+ process)) w1
    = (Ok tt, w2) ->
  hives w2 !! process = None ->
  process_lookup C !! process = None ->
  app C X POST_jobs req w =
    (Response 404 (error_body ("Process " +:+ process +:+ " not known")),
     emit (ELog 40 ("Process " +:+ process +:+ " not known")) w2).
Proof.
  intros Hct Hyes Hbody Hty Hev Hpre Hl Hc Hd.
  unfold app, handle.
  rewrite (submit_job_resolved _ _ _ _ _ _ Hct Hyes Hbody Hty Hev).
  unfold bind. rewrite submit_loop_app, Hpre. simpl.
  unfold bind, submit_process, bind. rewrite Hl.
  by rewrite (get_hive_unknown _ _ Hc Hd).
Qed.

(** X4.  An event whose [type] is a list or an object cannot be looked
    up in the table ([TypeError]: unhashable): no handler takes the
    exception, the request ends without a response (Flask's 500) and
    leaves no trace. *)
Theorem submit_job_unhashable_type (req : request) w (ct : string)
    (fields : list (string * json)) (v : json) :
  headers req !! "Content-Type" = Some ct ->
  json_pattern_match ct = true ->
  json_body req = JObj fields ->
  dict_get "type" fields = Some v ->
  (exists items, v = JArr items) \/ (exists fs, v = JObj fs) ->
  exists message,
    app C X POST_jobs req w = (Unhandled (TypeError message), w).
Proof.
  intros Hct Hyes Hbody Hty [[items ->]|[fs ->]]; eexists;
    unfold app; (apply handle_unhandled; [|done]);
    rewrite (submit_job_json _ _ _ Hct Hyes), Hbody;
    unfold bind, get_processes_for_event; by rewrite Hty.
Qed.

(** X5.  An event whose [type] is an integer is no key of the table
    (its keys are strings): the answer is 404 and the message prints the
    number in decimal. *)
Theorem submit_job_numeric_type (req : request) w (ct : string)
    (fields : list (string * json)) (n : Z) :
  headers req !! "Content-Type" = Some ct ->
  json_pattern_match ct = true ->
  json_body req = JObj fields ->
  dict_get "type" fields = Some (JNum n) ->
  app C X POST_jobs req w =
    (Response 404 (error_body ("Event type " +:+ pretty n +:+ " not known")),
     emit (ELog 40 ("Event type " +:+ pretty n +:+ " not known")) w).
Proof.
  intros Hct Hyes Hbody Hty. unfold app, handle.
  rewrite (submit_job_json _ _ _ Hct Hyes), Hbody.
  unfold bind, get_processes_for_event. by rewrite Hty.
Qed.

(** ** Unknown processes and backend errors in the other views *)

Lemma log_and_publish_hives (r : report) w res w1 :
  log_and_publish X r w = (res, w1) ->
  hives w1 = hives w /\ constructions (trace w1) = constructions (trace w).
Proof.
  unfold log_and_publish.
  destruct (logging_level (report_type r)) as [n|].
  - unfold bind, logger_log, call, emit. simpl. intros [= _ <-]. simpl.
    split; [done|]. rewrite !constructions_app. simpl.
    by rewrite !app_nil_r.
  - unfold raise. by intros [= _ <-].
Qed.

(** X6.  A process that has neither a cached connection nor a
    descriptor is answered 404 with [{error: "Process <p> not known"}]
    by every view that takes a process, and the backend is not called:
    DELETE answers at once; the two GET views first log and publish
    their INFO report and then answer. *)
Theorem unknown_process_404 (process : string) (id : Z) (req : request) w :
  hives w !! process = None ->
  process_lookup C !! process = None ->
  app C X (DELETE_job process id) req w =
    (Response 404 (error_body ("Process " +:+ process +:+ " not known")),
     emit (ELog 40 ("Process " +:+ process +:+ " not known")) w)
  /\ (forall w1,
        log_and_publish X (make_report "INFO" "Retrieving jobs") w
          = (Ok tt, w1) ->
        app C X (GET_jobs process) req w =
          (Response 404
             (error_body ("Process " +:+ process +:+ " not known")),
           emit (ELog 40 ("Process " +:+ process +:+ " not known")) w1))
  /\ (forall w1,
        args req !! "format" = None ->
        log_and_publish X
          (make_report "INFO"
             ("Retrieving job from " +:+ process +:+ " with ID "
              +:+ pretty id)) w = (Ok tt, w1) ->
        app C X (GET_job process id) req w =
          (Response 404
             (error_body ("Process " +:+ process +:+ " not known")),
           emit (ELog 40 ("Process " +:+ process +:+ " not known")) w1))
  /\ (forall email w1,
        args req !! "format" = Some "email" ->
        args req !! "email" = Some email ->
        log_and_publish X
          (make_report "INFO"
             ("Retrieving job with ID " +:+ pretty id +:+ " for "
              +:+ email)) w = (Ok tt, w1) ->
        app C X (GET_job process id) req w =
          (Response 404
             (error_body ("Process " +:+ process +:+ " not known")),
           emit (ELog 40 ("Process " +:+ process +:+ " not known")) w1)).
Proof.
  intros Hc Hd. split; [|split; [|split]].
  - unfold app, handle, delete_job, bind.
    by rewrite (get_hive_unknown _ _ Hc Hd).
  - intros w1 Hl. destruct (log_and_publish_hives _ _ _ _ Hl) as [Hh _].
    unfold app, handle, jobs, bind. rewrite Hl.
    rewrite get_hive_unknown; [done| |done]. by rewrite Hh.
  - intros w1 Hf Hl. destruct (log_and_publish_hives _ _ _ _ Hl) as [Hh _].
    unfold app, handle, job. rewrite Hf. unfold results, bind. rewrite Hl.
    unfold except_ValueError, bind.
    rewrite get_hive_unknown; [done| |done]. by rewrite Hh.
  - intros email w1 Hf He Hl.
    destruct (log_and_publish_hives _ _ _ _ Hl) as [Hh _].
    unfold app, handle, job. rewrite Hf, He. simpl.
    unfold results_email, bind. rewrite Hl.
    rewrite get_hive_unknown; [done| |done]. by rewrite Hh.
Qed.

(** X7.  GET /jobs/{process}: once the report is out and the
    connection obtained, the answer is what [get_all_results] returns
    for the analysis of the process; a [ValueError] of that call is not
    caught in this view (unlike in the views of a single job) and ends
    the request without a response. *)
Theorem jobs_spec (process : string) (req : request) w w1 h w2 d :
  log_and_publish X (make_report "INFO" "Retrieving jobs") w = (Ok tt, w1) ->
  get_hive C X process w1 = (Ok h, w2) ->
  process_lookup C !! process = Some d ->
  (forall doc o3,
      hive_get_all_results X h (analysis d) (outside w2) = (Ok doc, o3) ->
      app C X (GET_jobs process) req w =
        (Response 200 doc, advance w2 o3 [EGetAllResults h (analysis d)]))
  /\ (forall s o3,
        hive_get_all_results X h (analysis d) (outside w2)
          = (Raise (ValueError s), o3) ->
        app C X (GET_jobs process) req w =
          (Unhandled (ValueError s),
           advance w2 o3 [EGetAllResults h (analysis d)])).
Proof.
  intros Hl Hh Hd. split.
  - intros doc o3 Hr. unfold app, handle, jobs, bind. rewrite Hl, Hh.
    unfold get_analysis. rewrite Hd. unfold ret, call. by rewrite Hr.
  - intros s o3 Hr. unfold app, handle, jobs, bind. rewrite Hl, Hh.
    unfold get_analysis. rewrite Hd. unfold ret, call. by rewrite Hr.
Qed.

(** X8.  GET /jobs/{process}/{id} without [format]: a [ValueError] of
    [get_result_for_job_id] is answered 404 with its message; the only
    backend call is that read. *)
Theorem results_backend_rejects (process : string) (id : Z) (req : request)
    w w1 h w2 (s : string) o3 :
  args req !! "format" = None ->
  log_and_publish X
    (make_report "INFO"
       ("Retrieving job from " +:+ process +:+ " with ID " +:+ pretty id)) w
    = (Ok tt, w1) ->
  get_hive C X process w1 = (Ok h, w2) ->
  hive_get_result_for_job_id X h id (outside w2)
    = (Raise (ValueError s), o3) ->
  app C X (GET_job process id) req w =
    (Response 404 (error_body s),
     advance w2 o3 [EGetResult h id; ELog 40 s]).
Proof.
  intros Hf Hl Hh Hr. unfold app, handle, job. rewrite Hf.
  unfold results, bind. rewrite Hl. unfold except_ValueError, bind.
  rewrite Hh. unfold call. rewrite Hr. simpl.
  unfold emit; simpl. by rewrite advance_advance.
Qed.

(** X9.  GET /jobs/{process}/{id}?format=email&email=e: the job is
    fetched before its result.  A [ValueError] of the fetch is answered
    404 and the result is never read; a [ValueError] of the read is
    answered 404 as well. *)
Theorem results_email_backend_rejects (process email : string) (id : Z)
    (req : request) w w1 h w2 :
  args req !! "format" = Some "email" ->
  args req !! "email" = Some email ->
  log_and_publish X
    (make_report "INFO"
       ("Retrieving job with ID " +:+ pretty id +:+ " for " +:+ email)) w
    = (Ok tt, w1) ->
  get_hive C X process w1 = (Ok h, w2) ->
  (forall s o3,
      hive_get_job_by_id X h id (outside w2) = (Raise (ValueError s), o3) ->
      app C X (GET_job process id) req w =
        (Response 404 (error_body s),
         advance w2 o3 [EGetJob h id; ELog 40 s]))
  /\ (forall j o3 s o4,
        hive_get_job_by_id X h id (outside w2) = (Ok j, o3) ->
        hive_get_result_for_job_id X h id o3 = (Raise (ValueError s), o4) ->
        app C X (GET_job process id) req w =
          (Response 404 (error_body s),
           advance w2 o4 [EGetJob h id; EGetResult h id; ELog 40 s])).
Proof.
  intros Hf He Hl Hh. split.
  - intros s o3 Hj. unfold app, handle, job. rewrite Hf, He. simpl.
    unfold results_email, bind. rewrite Hl, Hh.
    unfold except_ValueError, bind, call. rewrite Hj. simpl.
    unfold emit; simpl. by rewrite advance_advance.
  - intros j o3 s o4 Hj Hr. unfold app, handle, job. rewrite Hf, He. simpl.
    unfold results_email, bind. rewrite Hl, Hh.
    unfold except_ValueError, bind, call. rewrite Hj. simpl. rewrite Hr.
    simpl. unfold emit; simpl. by rewrite !advance_advance.
Qed.

(** X10.  The [email] format needs a result that is a dictionary: for
    any other document the assignment [results['email'] = email] raises
    [TypeError], which no handler takes; the two backend reads have
    been made by then. *)
Theorem results_email_needs_dict (process email : string) (id : Z)
    (req : request) w w1 h w2 (j : Job) o3 (doc : json) o4 :
  args req !! "format" = Some "email" ->
  args req !! "email" = Some email ->
  log_and_publish X
    (make_report "INFO"
       ("Retrieving job with ID " +:+ pretty id +:+ " for " +:+ email)) w
    = (Ok tt, w1) ->
  get_hive C X process w1 = (Ok h, w2) ->
  hive_get_job_by_id X h id (outside w2) = (Ok j, o3) ->
  hive_get_result_for_job_id X h id o3 = (Ok doc, o4) ->
  (forall fields, doc <> JObj fields) ->
  exists message,
    app C X (GET_job process id) req w =
      (Unhandled (TypeError message),
       advance w2 o4 [EGetJob h id; EGetResult h id]).
Proof.
  intros Hf He Hl Hh Hj Hr Hdoc. eexists.
  unfold app. apply handle_unhandled; [|done].
  unfold job. rewrite Hf, He. simpl.
  unfold results_email, bind. rewrite Hl, Hh.
  unfold except_ValueError, bind, call. rewrite Hj. simpl. rewrite Hr.
  simpl. rewrite advance_advance. simpl.
  unfold set_email. destruct doc; try done. by destruct (Hdoc fields).
Qed.

(** X11.  DELETE /jobs/{process}/{id} fetches the job outside the
    [try] block: a [ValueError] of [get_job_by_id] (an id the backend
    does not have) is not turned into a 404; the request ends without a
    response and [delete_job] is never called on the backend. *)
Theorem delete_job_fetch_fails (process : string) (id : Z) (req : request)
    w h w1 (s : string) o2 :
  get_hive C X process w = (Ok h, w1) ->
  hive_get_job_by_id X h id (outside w1) = (Raise (ValueError s), o2) ->
  app C X (DELETE_job process id) req w =
    (Unhandled (ValueError s), advance w1 o2 [EGetJob h id])
  /\ status_of (fst (app C X (DELETE_job process id) req w)) = 500.
Proof.
  intros Hh Hj.
  assert (E : app C X (DELETE_job process id) req w =
            (Unhandled (ValueError s), advance w1 o2 [EGetJob h id])).
  { unfold app. apply handle_unhandled; [|done].
    unfold delete_job, bind. rewrite Hh. unfold call. by rewrite Hj. }
  by rewrite E.
Qed.

(** ** Properties of the world that requests keep *)

Section Preserves.

Context (Inv : world X -> Prop).
Context (Hadvance : forall w o es,
            constructions es = [] -> Inv w -> Inv (advance w o es)).

Lemma preserves_ret {A} (a : A) : preserves Inv (ret X a).
Proof. by intros w. Qed.

Lemma preserves_raise {A} (e : exn) : preserves Inv (@raise X A e).
Proof. by intros w. Qed.

Lemma preserves_bind {A B} (m : M X A) (k : A -> M X B) :
  preserves Inv m -> (forall a, preserves Inv (k a)) ->
  preserves Inv (bind X m k).
Proof.
  intros Hm Hk w Hw. unfold bind. specialize (Hm w Hw).
  destruct (m w) as [[a|e] w1]; simpl in Hm; [by apply Hk|done].
Qed.

Lemma preserves_except {A} (m : M X A) (h : string -> M X A) :
  preserves Inv m -> (forall s, preserves Inv (h s)) ->
  preserves Inv (except_ValueError X m h).
Proof.
  intros Hm Hh w Hw. unfold except_ValueError. specialize (Hm w Hw).
  destruct (m w) as [[a|e] w1]; simpl in Hm; [done|].
  destruct e as [| | |s| | | |]; try done. by apply Hh.
Qed.

Lemma preserves_call {A} (e : effect) (f : ext X -> outcome A * ext X) :
  constructions [e] = [] -> preserves Inv (call X e f).
Proof. intros He w Hw. unfold call; simpl. by apply Hadvance. Qed.

Lemma preserves_log_and_publish (r : report) :
  preserves Inv (log_and_publish X r).
Proof.
  unfold log_and_publish.
  destruct (logging_level (report_type r)); [|apply preserves_raise].
  apply preserves_bind; [|intros _; by apply preserves_call].
  intros w Hw. by apply Hadvance.
Qed.

Lemma preserves_get_analysis (process : string) :
  preserves Inv (get_analysis C X process).
Proof.
  unfold get_analysis.
  destruct (process_lookup C !! process);
    [apply preserves_ret|apply preserves_raise].
Qed.

Lemma preserves_set_email (doc : json) (email : string) :
  preserves Inv (set_email X doc email).
Proof.
  unfold set_email.
  destruct doc; (apply preserves_ret || apply preserves_raise).
Qed.

Ltac keep_step :=
  first
    [ assumption
    | apply preserves_ret
    | apply preserves_raise
    | apply preserves_log_and_publish
    | apply preserves_get_analysis
    | apply preserves_set_email
    | apply preserves_call; reflexivity
    | apply preserves_except; [|intro]
    | apply preserves_bind; [|intro] ].

Lemma preserves_submit_loop (event : json) (processes : list string) :
  (forall q, preserves Inv (get_hive C X q)) ->
  forall acc, preserves Inv (submit_loop C X event processes acc).
Proof.
  intros Hhive.
  induction processes as [|process rest IH]; intros acc; simpl.
  - apply preserves_ret.
  - apply preserves_bind; [|intros entry; apply IH].
    pose proof (Hhive process) as Hp.
    unfold submit_process. repeat keep_step.
Qed.

Lemma preserves_submit_job (req : request) :
  (forall q, preserves Inv (get_hive C X q)) ->
  preserves Inv (submit_job C X req).
Proof.
  intros Hhive. unfold submit_job. apply preserves_bind.
  { unfold header. destruct (headers req !! "Content-Type");
      [apply preserves_ret|apply preserves_raise]. }
  intros ct. destruct (json_pattern_match ct); [|apply preserves_raise].
  apply preserves_bind.
  { unfold get_processes_for_event.
    destruct (json_body req) as [| | | | |fields]; try apply preserves_raise.
    destruct (dict_get "type" fields) as [[| | |t| |]|];
      try apply preserves_raise.
    destruct (event_lookup C !! t);
      [apply preserves_ret|apply preserves_raise]. }
  intros processes. apply preserves_bind.
  { by apply preserves_submit_loop. }
  intros entries. apply preserves_ret.
Qed.

Lemma preserves_job (process : string) (id : Z) (req : request) :
  preserves Inv (get_hive C X process) ->
  preserves Inv (job C X process id req).
Proof.
  intros Hp. unfold job. destruct (args req !! "format") as [v|].
  - destruct (String.eqb v "email"); [|apply preserves_raise].
    destruct (args req !! "email") as [email|]; [|apply preserves_raise].
    unfold results_email. repeat keep_step.
  - unfold results. repeat keep_step.
Qed.

Lemma preserves_delete_job (process : string) (id : Z) :
  preserves Inv (get_hive C X process) ->
  preserves Inv (delete_job C X process id).
Proof. intros Hp. unfold delete_job. repeat keep_step. Qed.

Lemma preserves_jobs (process : string) :
  preserves Inv (get_hive C X process) ->
  preserves Inv (jobs C X process).
Proof. intros Hp. unfold jobs. repeat keep_step. Qed.

Lemma preserves_handle (view : M X json) w :
  preserves Inv view -> Inv w -> Inv (snd (handle X view w)).
Proof.
  intros Hv Hw. unfold handle. specialize (Hv w Hw).
  destruct (view w) as [[a|e] w1]; simpl in Hv; [done|].
  destruct (errorhandler e) as [[code s]|]; [|done].
  by apply Hadvance.
Qed.

(** Every request keeps [Inv] when every [get_hive] does. *)
Lemma preserves_app (r : route) (req : request) w :
  (forall q, preserves Inv (get_hive C X q)) ->
  Inv w -> Inv (snd (app C X r req w)).
Proof.
  intros Hhive Hw.
  destruct r as [|process id|process id|process]; simpl;
    apply preserves_handle; try done.
  - by apply preserves_submit_job.
  - by apply preserves_job.
  - by apply preserves_delete_job.
  - by apply preserves_jobs.
Qed.

(** A request on the process [p] keeps [Inv] when [get_hive p] does. *)
Lemma preserves_app_on (r : route) (p : string) (req : request) w :
  route_process r = Some p ->
  preserves Inv (get_hive C X p) ->
  Inv w -> Inv (snd (app C X r req w)).
Proof.
  intros Hr Hhive Hw.
  destruct r as [|process id|process id|process]; simpl in Hr;
    [done|injection Hr as ->..]; simpl; apply preserves_handle; try done.
  - by apply preserves_job.
  - by apply preserves_delete_job.
  - by apply preserves_jobs.
Qed.

End Preserves.

(** X12.  No request evicts or replaces a cached connection: a process
    that is cached before a request is cached with the same object
    after it, whatever the route, the input and the outcome, and the
    next [get_hive] for it returns that object without a change. *)
Theorem app_keeps_connection (r : route) (req : request) w
    (process : string) h :
  hives w !! process = Some h ->
  hives (snd (app C X r req w)) !! process = Some h
  /\ get_hive C X process (snd (app C X r req w))
     = (Ok h, snd (app C X r req w)).
Proof.
  intros Hc.
  assert (Hkept : hives (snd (app C X r req w)) !! process = Some h).
  { apply (preserves_app (fun w' => hives w' !! process = Some h));
      [done| |done].
    intros q w' Hw'. unfold get_hive.
    destruct (hives w' !! q) as [hq|] eqn:Eq; [done|].
    destruct (process_lookup C !! q); [|done]. simpl.
    rewrite lookup_insert_ne; [done|]. congruence. }
  split; [done|]. by apply get_hive_cached.
Qed.

(** X13.  A request on a process that is cached (GET of a job, DELETE,
    GET of the list) leaves the cache as it found it and builds no
    connection. *)
Theorem cached_process_builds_nothing (r : route) (req : request) w
    (process : string) h :
  route_process r = Some process ->
  hives w !! process = Some h ->
  hives (snd (app C X r req w)) = hives w
  /\ constructions (trace (snd (app C X r req w)))
     = constructions (trace w).
Proof.
  intros Hr Hc.
  apply (preserves_app_on
           (fun w' => hives w' = hives w
                      /\ constructions (trace w') = constructions (trace w))
           ) with (p := process); try done.
  - intros w' o es Hes [Hh Ht]. unfold advance; simpl. split; [done|].
    by rewrite constructions_app, Hes, app_nil_r.
  - intros w' [Hh Ht]. rewrite get_hive_cached with (h := h); [done|].
    by rewrite Hh.
Qed.

(** X14.  Where the cache invariant holds (it does from the start of
    the service on), there are as many cached connections as
    connections ever built, and no more than there are process
    descriptors. *)
Theorem pool_size_bound w :
  pool_inv C X w ->
  List.length (constructions (trace w)) = size (hives w)
  /\ (size (hives w) <= size (process_lookup C))%nat.
Proof.
  intros (Hnd & Hiff & Huri). split.
  - rewrite <- length_map_to_list. apply Permutation_length.
    apply NoDup_Permutation.
    + by apply NoDup_fmap_1 in Hnd.
    + apply NoDup_map_to_list.
    + intros [p h]. rewrite elem_of_map_to_list. symmetry. apply Hiff.
  - rewrite <- !size_dom. apply subseteq_size.
    intros p [h Hp]%elem_of_dom. destruct (Huri _ _ Hp) as (d & Hd & _).
    apply elem_of_dom. by exists d.
Qed.

(** ** What the routes add to the trace *)

Lemma emits_log_and_publish_key (P : effect -> Prop) (r : report) :
  (forall n s, P (ELog n s)) ->
  P (EPublish r ("report." +:+ lower (report_type r))) ->
  emits P (log_and_publish X r).
Proof.
  intros Hlog Hpub. unfold log_and_publish.
  destruct (logging_level (report_type r)); [|apply emits_raise].
  apply emits_bind; [|intros _; by apply emits_call].
  intros w. eexists [_]. split; [done|]. by apply Forall_singleton.
Qed.

Lemma emits_get_analysis (P : effect -> Prop) (process : string) :
  emits P (get_analysis C X process).
Proof.
  unfold get_analysis.
  destruct (process_lookup C !! process); [apply emits_ret|apply emits_raise].
Qed.

Lemma emits_set_email (P : effect -> Prop) (doc : json) (email : string) :
  emits P (set_email X doc email).
Proof.
  unfold set_email. destruct doc; (apply emits_ret || apply emits_raise).
Qed.

Lemma emits_job (P : effect -> Prop) (process : string) (id : Z)
    (req : request) :
  (forall e, changes_jobs e = false -> (forall r k, e <> EPublish r k) -> P e) ->
  (forall r, report_type r = "INFO" ->
             P (EPublish r ("report." +:+ lower (report_type r)))) ->
  emits P (job C X process id req).
Proof.
  intros HP Hpub.
  assert (Hlog : forall n s, P (ELog n s)) by (intros; by apply HP).
  assert (Hnew : forall h, P (ENewHive process h)) by (intros; by apply HP).
  unfold job. destruct (args req !! "format") as [v|].
  - destruct (String.eqb v "email"); [|apply emits_raise].
    destruct (args req !! "email") as [email|]; [|apply emits_raise].
    unfold results_email.
    apply emits_bind;
      [apply emits_log_and_publish_key; [done|by apply Hpub]|intros _].
    apply emits_bind; [by apply emits_get_hive|intros h].
    apply emits_bind; [|intros doc; apply emits_set_email].
    apply emits_except; [|intros s; apply emits_raise].
    apply emits_bind; [apply emits_call; by apply HP|intros _].
    apply emits_call; by apply HP.
  - unfold results.
    apply emits_bind;
      [apply emits_log_and_publish_key; [done|by apply Hpub]|intros _].
    apply emits_except; [|intros s; apply emits_raise].
    apply emits_bind; [by apply emits_get_hive|intros h].
    apply emits_call; by apply HP.
Qed.

Lemma emits_jobs (P : effect -> Prop) (process : string) :
  (forall e, changes_jobs e = false -> (forall r k, e <> EPublish r k) -> P e) ->
  (forall r, report_type r = "INFO" ->
             P (EPublish r ("report." +:+ lower (report_type r)))) ->
  emits P (jobs C X process).
Proof.
  intros HP Hpub.
  assert (Hlog : forall n s, P (ELog n s)) by (intros; by apply HP).
  assert (Hnew : forall h, P (ENewHive process h)) by (intros; by apply HP).
  unfold jobs.
  apply emits_bind;
    [apply emits_log_and_publish_key; [done|by apply Hpub]|intros _].
  apply emits_bind; [by apply emits_get_hive|intros h].
  apply emits_bind; [apply emits_get_analysis|intros a].
  apply emits_call; by apply HP.
Qed.

Lemma emits_delete_job (P : effect -> Prop) (process : string) (id : Z) :
  (forall e, creates_job e = false -> (forall r k, e <> EPublish r k) -> P e) ->
  emits P (delete_job C X process id).
Proof.
  intros HP. unfold delete_job.
  apply emits_bind; [apply emits_get_hive; intros; by apply HP|intros h].
  apply emits_bind; [apply emits_call; by apply HP|intros j].
  apply emits_bind; [|intros _; apply emits_ret].
  apply emits_except; [|intros s; apply emits_raise].
  apply emits_call; by apply HP.
Qed.

Lemma emits_submit_job (P : effect -> Prop) (req : request) :
  (forall e, is_delete e = false -> (forall r k, e <> EPublish r k) -> P e) ->
  (forall r, report_type r = "DEBUG" ->
             P (EPublish r ("report." +:+ lower (report_type r)))) ->
  emits P (submit_job C X req).
Proof.
  intros HP Hpub.
  assert (Hlog : forall n s, P (ELog n s)) by (intros; by apply HP).
  assert (Hloop : forall event processes acc,
             emits P (submit_loop C X event processes acc)).
  { intros event processes.
    induction processes as [|process rest IH]; intros acc; simpl.
    - apply emits_ret.
    - apply emits_bind; [|intros entry; apply IH].
      unfold submit_process.
      apply emits_bind;
        [apply emits_log_and_publish_key; [done|by apply Hpub]|intros _].
      apply emits_bind;
        [apply emits_get_hive; intros; by apply HP|intros h].
      apply emits_bind; [apply emits_get_analysis|intros a].
      apply emits_bind.
      { apply emits_except; [apply emits_call; by apply HP|].
        intros s. apply emits_raise. }
      intros j. apply emits_bind; [apply emits_call; by apply HP|].
      intros t. apply emits_ret. }
  unfold submit_job. apply emits_bind.
  { unfold header. destruct (headers req !! "Content-Type");
      [apply emits_ret|apply emits_raise]. }
  intros ct. destruct (json_pattern_match ct); [|apply emits_raise].
  apply emits_bind.
  { unfold get_processes_for_event.
    destruct (json_body req) as [| | | | |fields]; try apply emits_raise.
    destruct (dict_get "type" fields) as [[| | |t| |]|];
      try apply emits_raise.
    destruct (event_lookup C !! t); [apply emits_ret|apply emits_raise]. }
  intros processes. apply emits_bind; [apply Hloop|].
  intros entries. apply emits_ret.
Qed.

(** X15.  Which backend calls a request can make, whatever its input
    and outcome: POST /jobs never deletes a job, DELETE never creates a
    job or queues a task, and the two GET views neither create, queue
    nor delete. *)
Theorem routes_stay_in_their_lane (r : route) (req : request) w :
  exists es,
    trace (snd (app C X r req w)) = trace w ++ es
    /\ Forall (fun e => route_allows r e = true) es.
Proof.
  destruct r as [|process id|process id|process]; simpl;
    apply emits_handle; try done.
  - apply emits_submit_job.
    + intros e He _. simpl. by rewrite He.
    + done.
  - apply emits_job.
    + intros e He _. simpl. by rewrite He.
    + done.
  - apply emits_delete_job. intros e He _. simpl. by rewrite He.
  - apply emits_jobs.
    + intros e He _. simpl. by rewrite He.
    + done.
Qed.

(** X16.  Every report a request publishes is a DEBUG or INFO report
    and goes out under the routing key ["report." + lower(level)]
    ([report.debug] or [report.info]); the views publish nothing at
    WARNING or ERROR, the error handlers log without publishing. *)
Theorem app_reports_routed (r : route) (req : request) w :
  exists es,
    trace (snd (app C X r req w)) = trace w ++ es
    /\ Forall report_routed es.
Proof.
  assert (Hother : forall e, (forall r k, e <> EPublish r k) ->
                             report_routed e).
  { intros [] He; try exact I. by destruct (He r0 routing_key). }
  destruct r as [|process id|process id|process]; simpl;
    apply emits_handle; try done.
  - apply emits_submit_job; [by auto|]. intros r Hr. simpl. auto.
  - apply emits_job; [by auto|]. intros r Hr. simpl. auto.
  - apply emits_delete_job. by auto.
  - apply emits_jobs; [by auto|]. intros r Hr. simpl. auto.
Qed.

(** ** The statuses a request can end with *)

Section Raises.

Context (b : bool) (Hlib : library_raises_unhandled X).

Lemma raises_ret {A} (a : A) : raises_only (view_exception b) (ret X a).
Proof. by intros w e w'. Qed.

Lemma raises_raise {A} (e : exn) :
  view_exception b e -> raises_only (view_exception b) (@raise X A e).
Proof. intros He w e' w'. by intros [= <- _]. Qed.

Lemma raises_bind {A B} (m : M X A) (k : A -> M X B) :
  raises_only (view_exception b) m ->
  (forall a, raises_only (view_exception b) (k a)) ->
  raises_only (view_exception b) (bind X m k).
Proof.
  intros Hm Hk w e w'. unfold bind.
  destruct (m w) as [[a|e1] w1] eqn:E.
  - apply Hk.
  - intros [= <- _]. by eapply Hm.
Qed.

Lemma raises_except {A} (m : M X A) (h : string -> M X A) :
  raises_only (view_exception b) m ->
  (forall s, raises_only (view_exception b) (h s)) ->
  raises_only (view_exception b) (except_ValueError X m h).
Proof.
  intros Hm Hh w e w'. unfold except_ValueError.
  destruct (m w) as [[a|e1] w1] eqn:E; [done|].
  destruct e1 as [| | |s| | | |];
    try (intros [= <- _]; by eapply Hm).
  apply Hh.
Qed.

Lemma raises_call {A} (e : effect) (f : ext X -> outcome A * ext X) :
  (forall o e' o', f o = (Raise e', o') -> errorhandler e' = None) ->
  raises_only (view_exception b) (call X e f).
Proof.
  intros Hf w e' w'. unfold call.
  destruct (f (outside w)) as [[a|e1] o1] eqn:E; simpl; [done|].
  intros [= <- _]. unfold view_exception. by rewrite (Hf _ _ _ E).
Qed.

Lemma raises_get_hive (process : string) :
  raises_only (view_exception b) (get_hive C X process).
Proof.
  intros w e w'. unfold get_hive.
  destruct (hives w !! process); [done|].
  destruct (process_lookup C !! process); [done|].
  intros [= <- _]. by left.
Qed.

Lemma raises_get_analysis (process : string) :
  raises_only (view_exception b) (get_analysis C X process).
Proof.
  intros w e w'. unfold get_analysis.
  destruct (process_lookup C !! process); [done|].
  intros [= <- _]. by left.
Qed.

Lemma raises_log_and_publish (r : report) :
  raises_only (view_exception b) (log_and_publish X r).
Proof.
  unfold log_and_publish.
  destruct (logging_level (report_type r)); [|by apply raises_raise].
  apply raises_bind; [by intros w e w'|intros _].
  apply raises_call. destruct Hlib as (_ & _ & _ & _ & _ & Hpub & _).
  intros o e' o'. apply Hpub.
Qed.

Lemma raises_set_email (doc : json) (email : string) :
  raises_only (view_exception b) (set_email X doc email).
Proof.
  unfold set_email.
  destruct doc; (apply raises_ret || by apply raises_raise).
Qed.

Lemma raises_results (process : string) (id : Z) :
  raises_only (view_exception b) (results C X process id).
Proof.
  destruct Hlib as (_ & _ & Hres & _).
  unfold results.
  apply raises_bind; [apply raises_log_and_publish|intros _].
  apply raises_except; [|intros s; apply raises_raise; by left].
  apply raises_bind; [apply raises_get_hive|intros h].
  apply raises_call. intros o e' o'. apply Hres.
Qed.

Lemma raises_results_email (email process : string) (id : Z) :
  raises_only (view_exception b) (results_email C X email process id).
Proof.
  destruct Hlib as (_ & Hjob & Hres & _).
  unfold results_email.
  apply raises_bind; [apply raises_log_and_publish|intros _].
  apply raises_bind; [apply raises_get_hive|intros h].
  apply raises_bind; [|intros doc; apply raises_set_email].
  apply raises_except; [|intros s; apply raises_raise; by left].
  apply raises_bind; [|intros _].
  - apply raises_call. intros o e' o'. apply Hjob.
  - apply raises_call. intros o e' o'. apply Hres.
Qed.

Lemma raises_delete_job (process : string) (id : Z) :
  raises_only (view_exception b) (delete_job C X process id).
Proof.
  destruct Hlib as (_ & Hjob & _ & Hdel & _).
  unfold delete_job.
  apply raises_bind; [apply raises_get_hive|intros h].
  apply raises_bind; [apply raises_call; intros o e' o'; apply Hjob|].
  intros j. apply raises_bind; [|intros _; apply raises_ret].
  apply raises_except; [|intros s; apply raises_raise; by left].
  apply raises_call. intros o e' o'. apply Hdel.
Qed.

Lemma raises_jobs (process : string) :
  raises_only (view_exception b) (jobs C X process).
Proof.
  destruct Hlib as (_ & _ & _ & _ & Hall & _).
  unfold jobs.
  apply raises_bind; [apply raises_log_and_publish|intros _].
  apply raises_bind; [apply raises_get_hive|intros h].
  apply raises_bind; [apply raises_get_analysis|intros a].
  apply raises_call. intros o e' o'. apply Hall.
Qed.

Lemma raises_submit_loop (event : json) (processes : list string) :
  forall acc,
    raises_only (view_exception b) (submit_loop C X event processes acc).
Proof.
  destruct Hlib as (Hcreate & _ & _ & _ & _ & _ & Hdelay).
  induction processes as [|process rest IH]; intros acc; simpl.
  - apply raises_ret.
  - apply raises_bind; [|intros entry; apply IH].
    unfold submit_process.
    apply raises_bind; [apply raises_log_and_publish|intros _].
    apply raises_bind; [apply raises_get_hive|intros h].
    apply raises_bind; [apply raises_get_analysis|intros a].
    apply raises_bind.
    { apply raises_except; [|intros s; apply raises_raise; by left].
      apply raises_call. intros o e' o'. apply Hcreate. }
    intros j. apply raises_bind; [|intros t; apply raises_ret].
    apply raises_call. intros o e' o'. apply Hdelay.
Qed.

End Raises.

Lemma raises_submit_job (req : request) :
  library_raises_unhandled X ->
  raises_only (view_exception true) (submit_job C X req).
Proof.
  intros Hlib. unfold submit_job. apply raises_bind.
  { unfold header. destruct (headers req !! "Content-Type");
      [apply raises_ret|by apply raises_raise]. }
  intros ct. destruct (json_pattern_match ct);
    [|apply raises_raise; by right].
  apply raises_bind.
  { unfold get_processes_for_event.
    destruct (json_body req) as [| | | | |fields];
      try by apply raises_raise.
    destruct (dict_get "type" fields) as [[| | |t| |]|];
      try (by apply raises_raise); try (apply raises_raise; by left).
    destruct (event_lookup C !! t);
      [apply raises_ret|apply raises_raise; by left]. }
  intros processes. apply raises_bind; [by apply raises_submit_loop|].
  intros entries. apply raises_ret.
Qed.

Lemma raises_job (process : string) (id : Z) (req : request) :
  library_raises_unhandled X ->
  raises_only (view_exception true) (job C X process id req).
Proof.
  intros Hlib. unfold job. destruct (args req !! "format") as [v|].
  - destruct (String.eqb v "email"); [|apply raises_raise; by right].
    destruct (args req !! "email") as [email|];
      [|apply raises_raise; by right].
    by apply raises_results_email.
  - by apply raises_results.
Qed.

Lemma handle_statuses (flag : bool) (view : M X json) w :
  raises_only (view_exception flag) view ->
  (exists body,
      view w = (Ok body, snd (handle X view w))
      /\ fst (handle X view w) = Response 200 body)
  \/ (exists code s t,
        (code = 404 \/ (flag = true /\ code = 400))
        /\ fst (handle X view w) = Response code (JObj [("error", JStr s)])
        /\ trace (snd (handle X view w)) = t ++ [ELog 40 s])
  \/ (exists e,
        view w = (Raise e, snd (handle X view w))
        /\ fst (handle X view w) = Unhandled e
        /\ errorhandler e = None).
Proof.
  intros Hv. unfold handle.
  destruct (view w) as [[body|e] w1] eqn:E.
  - left. by exists body.
  - pose proof (Hv _ _ _ E) as He. unfold view_exception in He.
    destruct (errorhandler e) as [[code s]|] eqn:Eh.
    + right; left. exists code, s, (trace w1). by repeat split.
    + right; right. by exists e.
Qed.


(** ** The cache after a submission *)

Lemma get_hive_keeps (process q : string) h :
  preserves (fun w' : world X => hives w' !! process = Some h)
    (get_hive C X q).
Proof.
  intros w' Hw'. unfold get_hive.
  destruct (hives w' !! q) as [hq|] eqn:Eq; [done|].
  destruct (process_lookup C !! q); [|done]. simpl.
  rewrite lookup_insert_ne; [done|]. congruence.
Qed.

Lemma submit_process_caches (event : json) (process : string) w entry w' :
  submit_process C X event process w = (Ok entry, w') ->
  exists h, hives w' !! process = Some h.
Proof.
  unfold submit_process, bind, except_ValueError, call, raise, ret.
  destruct (log_and_publish _ _ _) as [[[]|?] w1]; [|done].
  destruct (get_hive _ _ _ _) as [[h|?] w2] eqn:Eh; [|done].
  destruct (get_hive_Ok _ _ _ _ Eh) as (Hin & _).
  unfold get_analysis. destruct (process_lookup C !! process); [|done].
  simpl.
  destruct (hive_create_job _ _ _ _ _) as [[j|[]] ?]; simpl; try done.
  destruct (process_result_delay _ _ _ _ _) as [[t|?] ?]; simpl; [|done].
  intros [= _ <-]. simpl. by exists h.
Qed.

Lemma submit_loop_caches (event : json) (processes : list string) :
  forall acc w acc' w',
    submit_loop C X event processes acc w = (Ok acc', w') ->
    forall p, p ∈ processes -> exists h, hives w' !! p = Some h.
Proof.
  induction processes as [|process rest IH]; intros acc w acc' w' Hrun p Hp.
  { by apply elem_of_nil in Hp. }
  simpl in Hrun. unfold bind in Hrun.
  destruct (submit_process C X event process w) as [[entry|e] w1] eqn:E;
    [|done].
  apply elem_of_cons in Hp as [->|Hp]; [|by eapply IH].
  destruct (submit_process_caches _ _ _ _ _ E) as [h Hh]. exists h.
  pose proof (preserves_submit_loop
                (fun w' : world X => hives w' !! process = Some h)
                (fun w0 o es _ H => H) event rest
                (fun q => get_hive_keeps process q h)
                (acc ++ [entry]) w1 Hh) as Hkept.
  by rewrite Hrun in Hkept.
Qed.

(** X18.  After a submission that went through, every process of the
    event has a cached connection, built from the address of its
    descriptor; the next [get_hive] for it builds nothing. *)
Theorem submit_job_caches_connections (req : request) w (ct : string)
    (fields : list (string * json)) (event_type : string)
    (processes : list string) (body : json) w' :
  pool_inv C X w ->
  headers req !! "Content-Type" = Some ct ->
  json_pattern_match ct = true ->
  json_body req = JObj fields ->
  dict_get "type" fields = Some (JStr event_type) ->
  event_lookup C !! event_type = Some processes ->
  submit_job C X req w = (Ok body, w') ->
  app C X POST_jobs req w = (Response 200 body, w')
  /\ forall p, p ∈ processes ->
       exists h d,
         hives w' !! p = Some h
         /\ process_lookup C !! p = Some d
         /\ hive_url h = hive_uri d
         /\ get_hive C X p w' = (Ok h, w').
Proof.
  intros Hinv Hct Hyes Hbody Hty Hev Hrun.
  split; [by apply handle_ok|].
  intros p Hp.
  pose proof (pool_safe_submit_job req w Hinv) as Hinv'.
  rewrite Hrun in Hinv'. simpl in Hinv'.
  rewrite (submit_job_resolved _ _ _ _ _ _ Hct Hyes Hbody Hty Hev) in Hrun.
  unfold bind in Hrun.
  destruct (submit_loop C X (json_body req) processes [] w)
    as [[entries|e] w1] eqn:Eloop; [|done].
  injection Hrun as _ <-.
  destruct (submit_loop_caches _ _ _ _ _ _ Eloop p Hp) as [h Hh].
  destruct Hinv' as (_ & _ & Huri).
  destruct (Huri _ _ Hh) as (d & Hd & Hu).
  exists h, d. repeat split; try done. by apply get_hive_cached.
Qed.

(** ** Connection objects *)

Lemma oids_in_order_advance w o es :
  constructions es = [] -> oids_in_order w -> oids_in_order (advance w o es).
Proof.
  intros Hes Hw i p h. unfold advance; simpl.
  rewrite constructions_app, Hes, app_nil_r. apply Hw.
Qed.

Lemma oids_in_order_start o : oids_in_order (Build_world X ∅ o []).
Proof. intros i p h. simpl. by rewrite lookup_nil. Qed.

Lemma get_hive_oids (q : string) :
  preserves oids_in_order (get_hive C X q).
Proof.
  intros w Hw. unfold get_hive.
  destruct (hives w !! q) as [hq|]; [done|].
  destruct (process_lookup C !! q) as [d|]; [|done]. simpl.
  intros i p h. simpl. rewrite constructions_app. simpl.
  intros [[_ Hi]|[-> [= <- <-]]]%lookup_snoc_Some; [|done].
  by apply (Hw _ _ _ Hi).
Qed.

(** The numbering holds from the start of the service on. *)
Lemma app_oids_in_order (r : route) (req : request) w :
  oids_in_order w -> oids_in_order (snd (app C X r req w)).
Proof.
  apply (preserves_app oids_in_order oids_in_order_advance).
  apply get_hive_oids.
Qed.

(** X19.  Two process names never share a connection object: where the
    cache invariant and the numbering of the objects hold (they do from
    the start of the service on), the connections cached for two
    different names are two different objects, even when their
    descriptors give the same address. *)
Theorem distinct_connections w (p q : string) hp hq :
  pool_inv C X w ->
  oids_in_order w ->
  hives w !! p = Some hp ->
  hives w !! q = Some hq ->
  p <> q ->
  hive_oid hp <> hive_oid hq.
Proof.
  intros (_ & Hiff & _) Hoid Hp Hq Hne Heq.
  apply Hiff in Hp. apply Hiff in Hq.
  apply list_elem_of_lookup in Hp as [i Hi].
  apply list_elem_of_lookup in Hq as [j Hj].
  pose proof (Hoid _ _ _ Hi) as Ei. pose proof (Hoid _ _ _ Hj) as Ej.
  assert (i = j) as -> by congruence. congruence.
Qed.

(** X20.  Every request keeps the two invariants of the connection
    cache: one connection per process name at most, the cache holding
    exactly the connections built, each from the address of its
    descriptor; and the objects numbered in the order they were built. *)
Theorem app_keeps_invariants (r : route) (req : request) w :
  pool_inv C X w ->
  oids_in_order w ->
  pool_inv C X (snd (app C X r req w))
  /\ oids_in_order (snd (app C X r req w)).
Proof.
  intros Hp Ho. split; [by apply app_pool_inv|by apply app_oids_in_order].
Qed.

(** ** Setting a field of a result *)

(** X21.  The assignment [results[k] = v] on a dictionary with unique
    keys: a key that is there keeps its place and the key list is
    unchanged (the value is overwritten, nothing is added); a key that
    is not there is appended at the end; the keys stay unique. *)
Theorem dict_set_keys (k : string) (v : json) (d : list (string * json)) :
  NoDup d.*1 ->
  NoDup (dict_set k v d).*1
  /\ (forall v0, dict_get k d = Some v0 -> (dict_set k v d).*1 = d.*1)
  /\ (dict_get k d = None -> dict_set k v d = d ++ [(k, v)]).
Proof.
  intros Hnd.
  assert (Hsome : forall v0, dict_get k d = Some v0 ->
                             (dict_set k v d).*1 = d.*1).
  { clear Hnd. induction d as [|[k' v'] d IH]; intros v0; simpl; [done|].
    destruct (String.eqb k k') eqn:E; simpl; [done|].
    intros Hg. f_equal. by eapply IH. }
  assert (Hnone : dict_get k d = None -> dict_set k v d = d ++ [(k, v)]).
  { clear Hnd Hsome. induction d as [|[k' v'] d IH]; simpl; [done|].
    destruct (String.eqb k k') eqn:E; [done|].
    intros Hg. f_equal. by apply IH. }
  split; [|by split].
  destruct (dict_get k d) as [v0|] eqn:Eg.
  - by rewrite (Hsome v0).
  - rewrite (Hnone eq_refl), fmap_app. simpl.
    apply NoDup_app. split; [done|]. split; [|apply NoDup_singleton].
    intros k0 Hin ->%list_elem_of_singleton.
    clear Hnd Hsome Hnone. induction d as [|[k' v'] d IH]; simpl in *.
    { by apply elem_of_nil in Hin. }
    destruct (String.eqb k k') eqn:E; [done|].
    apply elem_of_cons in Hin as [->|Hin]; [|by apply IH].
    by rewrite String.eqb_refl in E.
Qed.

End Properties.

(** * The service run on the demo deployment *)

Import Demo.

(** The run of a [new_genome] submission on the demo: the backend
    answers job 3 for [qc] and job 4 for [load]. *)
Lemma demo_genome_creations :
  creations_succeed config backend genome_event ["qc"; "load"] (start up)
    [(3, "task-qc-3"); (4, "task-load-4")] after_genome.
Proof.
  eapply (creations_step config backend genome_event "qc" ["load"]
            (start up) up qc_hive _
            {| hive_uri := "mysql://hive-1/qc"; analysis := "run_qc" |}
            {| job_id := 3 |} {| next_job := 4; bus_up := true |}
            "task-qc-3" {| next_job := 4; bus_up := true |});
    try reflexivity.
  eapply (creations_step config backend genome_event "load" []
            _ {| next_job := 4; bus_up := true |}
            {| hive_url := "mysql://hive-2/load"; hive_oid := 1 |} _
            {| hive_uri := "mysql://hive-2/load"; analysis := "load_db" |}
            {| job_id := 4 |} {| next_job := 5; bus_up := true |}
            "task-load-4" {| next_job := 5; bus_up := true |});
    try reflexivity.
  apply creations_done.
Qed.

(** C1 on the demo: [new_genome] maps to [qc] and [load]; the answer
    lists the two of them in this order, with the jobs 3 and 4 that the
    backend created. *)
Lemma submit_job_success_witness :
  event_lookup config !! "new_genome" = Some ["qc"; "load"]
  /\ app config backend POST_jobs (json_request genome_event) (start up) =
       (Response 200
          (JObj [("processes",
                  JArr [JObj [("process", JStr "qc"); ("job", JNum 3);
                              ("task", JStr "task-qc-3")];
                        JObj [("process", JStr "load"); ("job", JNum 4);
                              ("task", JStr "task-load-4")]]);
                 ("event", genome_event)]),
        after_genome).
Proof.
  split; [reflexivity|].
  exact (proj1 (submit_job_success config backend
                  (json_request genome_event) (start up)
                  "application/json; charset=utf-8"
                  [("type", JStr "new_genome")] "new_genome" ["qc"; "load"]
                  [(3, "task-qc-3"); (4, "task-load-4")] after_genome
                  eq_refl eq_refl eq_refl eq_refl eq_refl
                  demo_genome_creations)).
Defined.

(** C2 on the demo: an ERROR report with the bus down. *)
Lemma log_and_publish_spec_witness :
  logging_level "ERROR" = Some 40
  /\ log_and_publish backend (make_report "ERROR" "x") (start down) =
       (Raise (OtherError "message bus unreachable"),
        advance (start down) down
          [ELog 40 "x"; EPublish (make_report "ERROR" "x") "report.error"])
  /\ handle backend
       (bind backend (log_and_publish backend (make_report "ERROR" "x"))
          (fun _ => ret backend JNull)) (start down) =
       (Unhandled (OtherError "message bus unreachable"),
        advance (start down) down
          [ELog 40 "x"; EPublish (make_report "ERROR" "x") "report.error"]).
Proof.
  split; [reflexivity|].
  destruct (log_and_publish_spec backend (make_report "ERROR" "x") 40
              (start down) eq_refl) as [E K].
  split; [exact E|].
  exact (proj1 (K (OtherError "message bus unreachable")
                  (fun _ => ret backend JNull) eq_refl eq_refl)).
Defined.

(** C2 as written fails: with the bus down, GET /jobs/qc logs its
    report and then ends without a response. *)
Lemma publish_failure_fails_request :
  app config backend (GET_jobs "qc") (query []) (start down) =
    (Unhandled (OtherError "message bus unreachable"),
     advance (start down) down
       [ELog 20 "Retrieving jobs";
        EPublish (make_report "INFO" "Retrieving jobs") "report.info"])
  /\ status_of
       (fst (app config backend (GET_jobs "qc") (query []) (start down)))
     = 500.
Proof. split; reflexivity. Qed.

(** C4 on the demo: an event with a misspelt key. *)
Lemma submit_job_missing_type_witness :
  dict_get "type" [("tpye", JStr "new_genome")] = None
  /\ app config backend POST_jobs
       (json_request (JObj [("tpye", JStr "new_genome")])) (start up)
     = (Unhandled (KeyError "type"), start up).
Proof.
  split; [reflexivity|].
  exact (proj1 (submit_job_missing_type config backend
                  (json_request (JObj [("tpye", JStr "new_genome")]))
                  (start up) "application/json; charset=utf-8"
                  [("tpye", JStr "new_genome")]
                  eq_refl eq_refl eq_refl eq_refl)).
Defined.

(** C4 as written fails: the request has no [{error: ...}] answer, it
    is a 500. *)
Lemma missing_type_is_unhandled :
  app config backend POST_jobs
    (json_request (JObj [("tpye", JStr "new_genome")])) (start up)
  = (Unhandled (KeyError "type"), start up)
  /\ status_of
       (fst (app config backend POST_jobs
               (json_request (JObj [("tpye", JStr "new_genome")]))
               (start up)))
     = 500.
Proof. split; reflexivity. Qed.

(** C5 on the demo: [text/plain] with a well-formed event as body. *)
Lemma submit_job_rejects_content_type_witness :
  json_pattern_match "text/plain" = false
  /\ app config backend POST_jobs
       {| headers := {[ "Content-Type" := "text/plain" ]};
          args := ∅;
          json_body := genome_event |} (start up)
     = (Response 400
          (JObj [("error",
                  JStr "Could not handle input of type text/plain")]),
        emit (ELog 40 "Could not handle input of type text/plain")
          (start up)).
Proof.
  split; [reflexivity|].
  exact (proj1 (submit_job_rejects_content_type config backend
                  {| headers := {[ "Content-Type" := "text/plain" ]};
                     args := ∅;
                     json_body := genome_event |}
                  (start up) "text/plain" eq_refl eq_refl)).
Defined.


(** C3 on the demo: [handover] maps to [qc], [legacy], [load]; the
    backend creates job 3 for [qc] and refuses the analysis of
    [legacy].  The answer is the 404 alone, the backend counter stays at
    4 (job 3 is still there) and [load] is never submitted. *)
Lemma submit_job_partial_failure_witness :
  submit_loop config backend handover_event ["qc"] [] (start up)
    = (Ok [process_entry "qc" 3 "task-qc-3"], after_qc)
  /\ fst (app config backend POST_jobs (json_request handover_event)
            (start up))
     = Response 404 (JObj [("error", JStr "Analysis retired not found")])
  /\ outside (snd (app config backend POST_jobs
                     (json_request handover_event) (start up)))
     = {| next_job := 4; bus_up := true |}
  /\ constructions
       (trace (snd (app config backend POST_jobs
                      (json_request handover_event) (start up))))
     = [("qc", {| hive_url := "mysql://hive-1/qc"; hive_oid := 0 |});
        ("legacy", legacy_hive)].
Proof.
  split; [reflexivity|].
  destruct (submit_job_partial_failure config backend
              (json_request handover_event) (start up)
              "application/json; charset=utf-8"
              [("type", JStr "handover")] "handover"
              ["qc"] ["load"] "legacy"
              [process_entry "qc" 3 "task-qc-3"]
              after_qc after_report legacy_hive
              (snd (get_hive config backend "legacy" after_report))
              {| hive_uri := "mysql://hive-1/old"; analysis := "retired" |}
              "Analysis retired not found"
              {| next_job := 4; bus_up := true |})
    as (E & _ & _); try reflexivity.
  rewrite E. repeat split; reflexivity.
Defined.

(** C6 on the demo: the four ways of [format]. *)
Lemma job_format_dispatch_witness :
  app config backend (GET_job "qc" 1) (query []) (start up)
  = (Response 200 (JObj [("id", JNum 1); ("status", JStr "complete")]),
     snd (app config backend (GET_job "qc" 1) (query []) (start up)))
  /\ fst (app config backend (GET_job "qc" 1) (query [("format", "email")])
            (start up))
     = Response 400 (JObj [("error", JStr "Email not specified")])
  /\ fst (app config backend (GET_job "qc" 1)
            (query [("format", "email"); ("email", "a@b.com")]) (start up))
     = Response 200
         (JObj [("id", JNum 1); ("status", JStr "complete");
                ("email", JStr "a@b.com")])
  /\ fst (app config backend (GET_job "qc" 1) (query [("format", "bogus")])
            (start up))
     = Response 400 (JObj [("error", JStr "Format bogus not known")]).
Proof.
  split; [|split; [|split]].
  - destruct (job_format_dispatch config backend "qc" 1 (query [])
                (start up)) as (H & _).
    destruct (H eq_refl) as [_ K].
    rewrite (K (snd (log_and_publish backend
                       (make_report "INFO" "Retrieving job from qc with ID 1")
                       (start up)))
               {| hive_url := "mysql://hive-1/qc"; hive_oid := 0 |}
               _ (JObj [("id", JNum 1); ("status", JStr "complete")]) up
               eq_refl eq_refl eq_refl).
    reflexivity.
  - destruct (job_format_dispatch config backend "qc" 1
                (query [("format", "email")]) (start up)) as (_ & H & _).
    rewrite (H eq_refl eq_refl). reflexivity.
  - destruct (job_format_dispatch config backend "qc" 1
                (query [("format", "email"); ("email", "a@b.com")])
                (start up)) as (_ & _ & H & _).
    destruct (H "a@b.com" eq_refl eq_refl) as [_ K].
    destruct (K (snd (log_and_publish backend
                        (make_report "INFO"
                           "Retrieving job with ID 1 for a@b.com")
                        (start up)))
                {| hive_url := "mysql://hive-1/qc"; hive_oid := 0 |}
                _ {| job_id := 1 |} up
                [("id", JNum 1); ("status", JStr "complete")] up
                eq_refl eq_refl eq_refl eq_refl) as (E & _).
    rewrite E. reflexivity.
  - destruct (job_format_dispatch config backend "qc" 1
                (query [("format", "bogus")]) (start up)) as (_ & _ & _ & H).
    rewrite (H "bogus" eq_refl); [reflexivity|discriminate].
Defined.

(** C8 on the demo: the first call for [qc] builds the connection, the
    second returns the same object from the same world, and a name
    without descriptor raises. *)
Lemma get_hive_pool_witness :
  pool_inv config backend (start up)
  /\ get_hive config backend "qc" (start up) = (Ok qc_hive, with_qc)
  /\ constructions (trace with_qc) = [("qc", qc_hive)]
  /\ get_hive config backend "qc" with_qc = (Ok qc_hive, with_qc)
  /\ get_hive config backend "nobody" with_qc
     = (Raise (ProcessNotFoundError "Process nobody not known"), with_qc).
Proof.
  assert (H0 : pool_inv config backend (start up))
    by apply pool_inv_start.
  destruct (get_hive_pool config backend "qc" (start up) H0)
    as (H1 & _ & _ & _).
  destruct (get_hive_pool config backend "qc" with_qc H1)
    as (_ & Hcached & _ & _).
  destruct (get_hive_pool config backend "nobody" with_qc H1)
    as (_ & _ & _ & Hunknown).
  split; [exact H0|]. split; [reflexivity|]. split; [reflexivity|].
  split; [exact (Hcached qc_hive eq_refl)|exact (Hunknown eq_refl)].
Defined.

(** C9 on the demo: job 0 cannot be deleted, job 1 can; [qc] is
    cached after either request. *)
Lemma delete_job_spec_witness :
  (fst (app config backend (DELETE_job "qc" 0) (query []) with_qc)
   = Response 404 (JObj [("error", JStr "Job 0 is still running")])
   /\ hives (snd (app config backend (DELETE_job "qc" 0) (query []) with_qc))
      = hives with_qc
   /\ hives (snd (app config backend (DELETE_job "qc" 0) (query []) with_qc))
        !! "qc" = Some qc_hive)
  /\ fst (app config backend (DELETE_job "qc" 1) (query []) with_qc)
     = Response 200 (JObj [("id", JNum 1); ("process", JStr "qc")]).
Proof.
  split.
  - destruct (delete_job_spec config backend "qc" 0 (query [])
                with_qc qc_hive with_qc {| job_id := 0 |} up
                eq_refl eq_refl) as [Hrej _].
    destruct (Hrej "Job 0 is still running" up eq_refl)
      as (E & Hin & Hsame & _).
    split; [by rewrite E|]. split; [exact Hsame|exact Hin].
  - destruct (delete_job_spec config backend "qc" 1 (query [])
                with_qc qc_hive with_qc {| job_id := 1 |} up
                eq_refl eq_refl) as [_ Hok].
    by rewrite (Hok up eq_refl).
Defined.

(** C10 on the demo: [email] given and empty. *)
Lemma job_empty_email_witness :
  args (query [("format", "email"); ("email", EmptyString)]) !! "email"
    = Some EmptyString
  /\ fst (app config backend (GET_job "qc" 1)
            (query [("format", "email"); ("email", EmptyString)]) (start up))
     = Response 200
         (JObj [("id", JNum 1); ("status", JStr "complete");
                ("email", JStr EmptyString)]).
Proof.
  split; [reflexivity|].
  destruct (job_empty_email config backend "qc" 1
              (query [("format", "email"); ("email", EmptyString)])
              (start up) eq_refl eq_refl) as [_ K].
  destruct (K (snd (log_and_publish backend
                      (make_report "INFO" "Retrieving job with ID 1 for ")
                      (start up)))
              qc_hive _ {| job_id := 1 |} up
              [("id", JNum 1); ("status", JStr "complete")] up
              eq_refl eq_refl eq_refl eq_refl) as (E & _).
  rewrite E. reflexivity.
Defined.

(** * Further runs on the demo deployments *)

(** X2 on the demo: [noop] maps to no process. *)
Lemma submit_job_no_processes_witness :
  event_lookup config !! "noop" = Some []
  /\ app config backend POST_jobs
       (json_request (JObj [("type", JStr "noop")])) (start up)
     = (Response 200
          (JObj [("processes", JArr []);
                 ("event", JObj [("type", JStr "noop")])]),
        start up).
Proof.
  split; [reflexivity|].
  exact (submit_job_no_processes config backend
           (json_request (JObj [("type", JStr "noop")])) (start up)
           "application/json; charset=utf-8"
           [("type", JStr "noop")] "noop"
           eq_refl eq_refl eq_refl eq_refl eq_refl).
Defined.

(** X3 on the stale deployment: [archive] names [qc], [ghost], [load];
    job 3 is created for [qc], [ghost] is answered 404, [load] is not
    tried. *)
Lemma submit_job_unknown_process_witness :
  process_lookup config_stale !! "ghost" = None
  /\ fst (app config_stale backend POST_jobs (json_request archive_event)
            (start up))
     = Response 404 (JObj [("error", JStr "Process ghost not known")])
  /\ outside (snd (app config_stale backend POST_jobs
                     (json_request archive_event) (start up)))
     = {| next_job := 4; bus_up := true |}.
Proof.
  split; [reflexivity|].
  rewrite (submit_job_unknown_process config_stale backend
             (json_request archive_event) (start up)
             "application/json; charset=utf-8"
             [("type", JStr "archive")] "archive" ["qc"] ["load"] "ghost"
             [process_entry "qc" 3 "task-qc-3"]
             (snd (submit_loop config_stale backend archive_event ["qc"] []
                     (start up)))
             (snd (log_and_publish backend
                     (make_report "DEBUG" "Submitting process ghost")
                     (snd (submit_loop config_stale backend archive_event
                             ["qc"] [] (start up)))))
             eq_refl eq_refl eq_refl eq_refl eq_refl eq_refl eq_refl
             eq_refl eq_refl).
  split; reflexivity.
Defined.

(** X4 on the demo: a list as [type]. *)
Lemma submit_job_unhashable_type_witness :
  exists message,
    app config backend POST_jobs
      (json_request (JObj [("type", JArr [JStr "new_genome"])])) (start up)
    = (Unhandled (TypeError message), start up).
Proof.
  apply (submit_job_unhashable_type config backend
           (json_request (JObj [("type", JArr [JStr "new_genome"])]))
           (start up) "application/json; charset=utf-8"
           [("type", JArr [JStr "new_genome"])] (JArr [JStr "new_genome"]));
    try reflexivity.
  left. by eexists.
Defined.

(** X5 on the demo: the number 7 as [type]. *)
Lemma submit_job_numeric_type_witness :
  fst (app config backend POST_jobs
         (json_request (JObj [("type", JNum 7)])) (start up))
  = Response 404 (JObj [("error", JStr "Event type 7 not known")]).
Proof.
  rewrite (submit_job_numeric_type config backend
             (json_request (JObj [("type", JNum 7)])) (start up)
             "application/json; charset=utf-8" [("type", JNum 7)] 7
             eq_refl eq_refl eq_refl eq_refl).
  reflexivity.
Defined.

(** X6 on the demo: the process [nobody]. *)
Lemma unknown_process_404_witness :
  app config backend (DELETE_job "nobody" 1) (query []) (start up)
  = (Response 404 (JObj [("error", JStr "Process nobody not known")]),
     emit (ELog 40 "Process nobody not known") (start up))
  /\ fst (app config backend (GET_jobs "nobody") (query []) (start up))
     = Response 404 (JObj [("error", JStr "Process nobody not known")])
  /\ trace (snd (app config backend (GET_job "nobody" 1) (query [])
                   (start up)))
     = [ELog 20 "Retrieving job from nobody with ID 1";
        EPublish
          (make_report "INFO" "Retrieving job from nobody with ID 1")
          "report.info";
        ELog 40 "Process nobody not known"].
Proof.
  destruct (unknown_process_404 config backend "nobody" 1 (query [])
              (start up) eq_refl eq_refl) as (Hdel & Hjobs & Hjob & _).
  split; [exact Hdel|]. split.
  - by rewrite (Hjobs _ eq_refl).
  - by rewrite (Hjob _ eq_refl eq_refl).
Defined.

(** X7 on the second backend: the list of [qc] is returned, the refusal
    for [legacy] leaves the request without a response. *)
Lemma jobs_spec_witness :
  fst (app config backend_checked (GET_jobs "qc") (query [])
         (start_checked up))
  = Response 200 (JArr [])
  /\ fst (app config backend_checked (GET_jobs "legacy") (query [])
            (start_checked up))
     = Unhandled (ValueError "Analysis retired not found").
Proof.
  split.
  - destruct (jobs_spec config backend_checked "qc" (query [])
                (start_checked up) _ qc_hive _
                {| hive_uri := "mysql://hive-1/qc"; analysis := "run_qc" |}
                eq_refl eq_refl eq_refl) as [Hok _].
    by rewrite (Hok (JArr []) up eq_refl).
  - destruct (jobs_spec config backend_checked "legacy" (query [])
                (start_checked up) _
                {| hive_url := "mysql://hive-1/old"; hive_oid := 0 |} _
                {| hive_uri := "mysql://hive-1/old"; analysis := "retired" |}
                eq_refl eq_refl eq_refl) as [_ Hbad].
    by rewrite (Hbad "Analysis retired not found" up eq_refl).
Defined.

(** X8 on the demo: job 9 does not exist. *)
Lemma results_backend_rejects_witness :
  fst (app config backend (GET_job "qc" 9) (query []) (start up))
  = Response 404 (JObj [("error", JStr "Job 9 not found")]).
Proof.
  rewrite (results_backend_rejects config backend "qc" 9 (query [])
             (start up) _ qc_hive _ "Job 9 not found" up
             eq_refl eq_refl eq_refl eq_refl).
  reflexivity.
Defined.

(** X9 on the demo: job 9 does not exist; the trace ends with the fetch
    and the ERROR line. *)
Lemma results_email_backend_rejects_witness :
  app config backend (GET_job "qc" 9)
    (query [("format", "email"); ("email", "a@b.com")]) with_qc
  = (Response 404 (JObj [("error", JStr "Job 9 not found")]),
     advance
       (snd (log_and_publish backend
               (make_report "INFO" "Retrieving job with ID 9 for a@b.com")
               with_qc))
       up [EGetJob qc_hive 9; ELog 40 "Job 9 not found"]).
Proof.
  destruct (results_email_backend_rejects config backend "qc" "a@b.com" 9
              (query [("format", "email"); ("email", "a@b.com")]) with_qc
              _ qc_hive _ eq_refl eq_refl eq_refl eq_refl) as [Hfetch _].
  exact (Hfetch "Job 9 not found" up eq_refl).
Defined.

(** X10 on the second backend: job 2 has no result yet. *)
Lemma results_email_needs_dict_witness :
  exists message,
    fst (app config backend_checked (GET_job "qc" 2)
           (query [("format", "email"); ("email", "a@b.com")])
           (start_checked up))
    = Unhandled (TypeError message).
Proof.
  destruct (results_email_needs_dict config backend_checked "qc" "a@b.com" 2
              (query [("format", "email"); ("email", "a@b.com")])
              (start_checked up) _ qc_hive _ {| job_id := 2 |} up JNull up
              eq_refl eq_refl eq_refl eq_refl eq_refl eq_refl)
    as [message E]; [done|].
  exists message. by rewrite E.
Defined.

(** X11 on the demo: DELETE of job 9, which does not exist. *)
Lemma delete_job_fetch_fails_witness :
  app config backend (DELETE_job "qc" 9) (query []) with_qc
  = (Unhandled (ValueError "Job 9 not found"),
     advance with_qc up [EGetJob qc_hive 9]).
Proof.
  exact (proj1 (delete_job_fetch_fails config backend "qc" 9 (query [])
                  with_qc qc_hive with_qc "Job 9 not found" up
                  eq_refl eq_refl)).
Defined.

(** X12 on the demo: [qc] is cached; a submission of [handover], which
    fails part of the way, keeps it. *)
Lemma app_keeps_connection_witness :
  hives with_qc !! "qc" = Some qc_hive
  /\ hives (snd (app config backend POST_jobs (json_request handover_event)
                   with_qc)) !! "qc" = Some qc_hive.
Proof.
  split; [reflexivity|].
  exact (proj1 (app_keeps_connection config backend POST_jobs
                  (json_request handover_event) with_qc "qc" qc_hive
                  eq_refl)).
Defined.

(** X13 on the demo: a DELETE on the cached [qc]. *)
Lemma cached_process_builds_nothing_witness :
  hives (snd (app config backend (DELETE_job "qc" 1) (query []) with_qc))
  = hives with_qc
  /\ constructions
       (trace (snd (app config backend (DELETE_job "qc" 1) (query [])
                      with_qc)))
     = [("qc", qc_hive)].
Proof.
  exact (cached_process_builds_nothing config backend (DELETE_job "qc" 1)
           (query []) with_qc "qc" qc_hive eq_refl eq_refl).
Defined.

(** X14 on the demo: after a [new_genome] submission two connections
    exist, for three descriptors. *)
Lemma pool_size_bound_witness :
  List.length (constructions (trace after_genome)) = size (hives after_genome)
  /\ (size (hives after_genome) <= size (process_lookup config))%nat.
Proof.
  apply pool_size_bound. apply app_pool_inv. apply pool_inv_start.
Defined.

(** The demo backend raises [ValueError] and, with the bus down, a
    connection error: nothing the application handles. *)
Lemma demo_library_raises_unhandled : library_raises_unhandled backend.
Proof.
  repeat split; simpl.
  - intros h a payload o e o'. unfold create_job.
    destruct (String.eqb a "retired"); by intros [= <- _].
  - intros h id o e o'. unfold get_job_by_id.
    destruct (id <? next_job o)%Z; by intros [= <- _].
  - intros h id o e o'. unfold get_result_for_job_id.
    destruct (id <? next_job o)%Z; by intros [= <- _].
  - intros h j o e o'. unfold delete_job.
    destruct (job_id j =? 0)%Z; by intros [= <- _].
  - intros h a o e o'. unfold get_all_results. done.
  - intros r key o e o'. unfold publish.
    destruct (bus_up o); by intros [= <- _].
  - intros event process id o e o'. unfold delay. done.
Qed.


(** X18 on the demo: after the [new_genome] submission [load], the
    second process of the event, is cached. *)
Lemma submit_job_caches_connections_witness :
  exists h d,
    hives after_genome !! "load" = Some h
    /\ process_lookup config !! "load" = Some d
    /\ hive_url h = hive_uri d
    /\ get_hive config backend "load" after_genome = (Ok h, after_genome).
Proof.
  apply (proj2 (submit_job_caches_connections config backend
                  (json_request genome_event) (start up)
                  "application/json; charset=utf-8"
                  [("type", JStr "new_genome")] "new_genome" ["qc"; "load"]
                  (JObj [("processes",
                          JArr [process_entry "qc" 3 "task-qc-3";
                                process_entry "load" 4 "task-load-4"]);
                         ("event", genome_event)])
                  after_genome
                  (pool_inv_start config backend up)
                  eq_refl eq_refl eq_refl eq_refl eq_refl eq_refl)).
  rewrite !elem_of_cons. auto.
Defined.

(** X19 on the demo: the connections of [qc] and [load] after the
    submission. *)
Lemma distinct_connections_witness :
  hives after_genome !! "qc" = Some qc_hive
  /\ hives after_genome !! "load"
     = Some {| hive_url := "mysql://hive-2/load"; hive_oid := 1 |}
  /\ hive_oid qc_hive
     <> hive_oid {| hive_url := "mysql://hive-2/load"; hive_oid := 1 |}.
Proof.
  split; [reflexivity|]. split; [reflexivity|].
  apply (distinct_connections config backend after_genome "qc" "load").
  - apply app_pool_inv. apply pool_inv_start.
  - apply app_oids_in_order. apply oids_in_order_start.
  - reflexivity.
  - reflexivity.
  - discriminate.
Defined.

(** X20 on the demo: the first request of the service. *)
Lemma app_keeps_invariants_witness :
  pool_inv config backend after_genome /\ oids_in_order after_genome.
Proof.
  apply (app_keeps_invariants config backend POST_jobs
           (json_request genome_event) (start up)).
  - apply pool_inv_start.
  - apply oids_in_order_start.
Defined.

(** X21 on a result that has an [email] field already, and on one that
    has none. *)
Lemma dict_set_keys_witness :
  (dict_set "email" (JStr "a@b.com")
     [("id", JNum 1); ("email", JStr "old"); ("status", JStr "complete")]).*1
  = ["id"; "email"; "status"]
  /\ dict_set "email" (JStr "a@b.com") [("id", JNum 1)]
     = [("id", JNum 1); ("email", JStr "a@b.com")].
Proof.
  split.
  - destruct (dict_set_keys "email" (JStr "a@b.com")
                [("id", JNum 1); ("email", JStr "old");
                 ("status", JStr "complete")]) as (_ & Hsome & _).
    { apply (bool_decide_unpack _). reflexivity. }
    exact (Hsome (JStr "old") eq_refl).
  - destruct (dict_set_keys "email" (JStr "a@b.com") [("id", JNum 1)])
      as (_ & _ & Hnone).
    { apply (bool_decide_unpack _). reflexivity. }
    exact (Hnone eq_refl).
Defined.
